(** * OpenALStream: the streaming loop of the OpenAL audio backend

    A shallow embedding of [Source/Core/AudioCommon/OpenALStream.cpp]:
    [CheckALError] and [OpenALStream::SoundLoop], written as a small
    state-and-trace monad over the OpenAL error register and the
    SoundTouch engine, with the answers of the device, the mixer and the
    speed source supplied per loop iteration.

    Floating point values are [spec_float] (IEEE 754 operations of the
    standard library): [float] is binary32, [double] is binary64.

    The loop runs on one thread; what the other threads do shows in the
    values it reads (the run flag at the loop head, the speed, the answers
    of the device).  Every OpenAL call of the loop may raise an error, which
    the context keeps until [alGetError] fetches it.  The time-stretch
    engine and the surround decoder are parameters. *)

From Stdlib Require Import ZArith List Bool String Lia.
From Stdlib Require Import SpecFloat.
Import ListNotations.
Local Open Scope Z_scope.

(** ** Machine arithmetic *)

(** [unsigned int] and [u32] arithmetic wraps modulo 2^32. *)
Definition wrap32 (z : Z) : Z := z mod 2 ^ 32.
(** [u64] arithmetic wraps modulo 2^64. *)
Definition wrap64 (z : Z) : Z := z mod 2 ^ 64.

Definition SHRT_MIN : Z := -32768.
Definition SHRT_MAX : Z := 32767.

(** ** Floating point *)

Module F32.
Definition prec : Z := 24.
Definition emax : Z := 128.
(** [(float)z] for an integer [z]. *)
Definition of_Z (z : Z) : spec_float := binary_normalize prec emax z 0 false.
Definition mul : spec_float -> spec_float -> spec_float := SFmul prec emax.
Definition div : spec_float -> spec_float -> spec_float := SFdiv prec emax.
Definition zero : spec_float := S754_zero false.
Definition one : spec_float := of_Z 1.
(** [(1 << 15)] converted to [float]. *)
Definition two15 : spec_float := of_Z (Z.shiftl 1 15).
End F32.

Module F64.
Definition prec : Z := 53.
Definition emax : Z := 1024.
Definition of_Z (z : Z) : spec_float := binary_normalize prec emax z 0 false.
Definition div : spec_float -> spec_float -> spec_float := SFdiv prec emax.
(** The literal [0] of [rate <= 0]. *)
Definition zero : spec_float := S754_zero false.
(** The literal [1.0] of [setTempo(1.0)]. *)
Definition one : spec_float := of_Z 1.
(** The literal [0.10]: the binary64 number nearest to one tenth. *)
Definition tenth : spec_float := S754_finite false 7205759403792794 (-56).
(** The literal [10] of [rate > 10]. *)
Definition ten : spec_float := of_Z 10.
(** [a > b] and [a <= b] of C++ on doubles; both are false on NaN. *)
Definition gt (a b : spec_float) : bool := SFltb b a.
Definition le (a b : spec_float) : bool := SFleb a b.
End F64.

(** Truncation toward zero of a floating point value, the first half of a
    float-to-integer conversion; NaN and the infinities have none. *)
Definition trunc_float (f : spec_float) : option Z :=
  match f with
  | S754_zero _ => Some 0
  | S754_finite s m e =>
      let a := if 0 <=? e then Z.pos m * 2 ^ e else Z.pos m / 2 ^ (- e) in
      Some (if s then - a else a)
  | S754_infinity _ | S754_nan => None
  end.

(** [(short)f]: the truncated value when [short] can represent it.  The
    conversion is undefined otherwise, which is [None] here: nothing
    saturates the value into range. *)
Definition float_to_short (f : spec_float) : option Z :=
  match trunc_float f with
  | Some z => if (SHRT_MIN <=? z) && (z <=? SHRT_MAX) then Some z else None
  | None => None
  end.

(** [(float)x / (1 << 15)], line 264. *)
Definition short_to_sample (x : Z) : spec_float := F32.div (F32.of_Z x) F32.two15.

(** [(short)((float)x * (1 << 15))], lines 314 and 347. *)
Definition sample_to_short (x : spec_float) : option Z :=
  float_to_short (F32.mul x F32.two15).

(** ** Arrays *)

(** [a[i]] for reading; an index past the modelled contents reads [d]. *)
Definition array_get {A} (d : A) (a : list A) (i : nat) : A := nth i a d.

(** [a[i] = v]; the arrays of the source are large enough for every index
    the loop writes, an index past the modelled contents changes nothing. *)
Fixpoint array_set {A} (a : list A) (i : nat) (v : A) : list A :=
  match a, i with
  | [], _ => []
  | _ :: t, O => v :: t
  | h :: t, S j => h :: array_set t j v
  end.

(** [for (u32 i = 0; i < n; ++i) out[i] = f(a[i])]. *)
Definition array_map_upto {A B} (d : A) (f : A -> B) (a : list A) (n : Z) : list B :=
  map (fun i => f (array_get d a i)) (seq 0 (Z.to_nat n)).

(** ** OpenAL constants *)

Definition ALenum := Z.
Definition AL_NO_ERROR : ALenum := 0.
Definition AL_INVALID_NAME : ALenum := 0xA001.
Definition AL_INVALID_ENUM : ALenum := 0xA002.
Definition AL_INVALID_VALUE : ALenum := 0xA003.
Definition AL_INVALID_OPERATION : ALenum := 0xA004.
Definition AL_OUT_OF_MEMORY : ALenum := 0xA005.
Definition AL_PLAYING : Z := 0x1012.

(** The four sample formats handed to [alBufferData]. *)
Inductive ALformat :=
| AL_FORMAT_STEREO16
| AL_FORMAT_STEREO_FLOAT32
| AL_FORMAT_51CHN16
| AL_FORMAT_51CHN32.

(** Modelled from the spec: the channel counts and frame sizes of
    [OpenALStream.h], which is not among the sources; the spec fixes two
    channels of stereo, six of surround, 16-bit integer and 32-bit float
    samples. *)
Definition STEREO_CHANNELS : Z := 2.
Definition SURROUND_CHANNELS : Z := 6.
Definition SIZE_SHORT : Z := 2.
Definition SIZE_FLOAT : Z := 4.
Definition FRAME_STEREO_SHORT : Z := STEREO_CHANNELS * SIZE_SHORT.
Definition FRAME_STEREO_FLOAT : Z := STEREO_CHANNELS * SIZE_FLOAT.
Definition FRAME_SURROUND_SHORT : Z := SURROUND_CHANNELS * SIZE_SHORT.
Definition FRAME_SURROUND_FLOAT : Z := SURROUND_CHANNELS * SIZE_FLOAT.

(** SoundTouch setting identifiers (SoundTouch.h). *)
Definition SETTING_USE_AA_FILTER : Z := 0.
Definition SETTING_USE_QUICKSEEK : Z := 2.
Definition SETTING_SEQUENCE_MS : Z := 3.
Definition SETTING_SEEKWINDOW_MS : Z := 4.
Definition SETTING_OVERLAP_MS : Z := 5.

(** ** Observable actions *)

(** What a buffer submission carries: floats, or the results of the casts to
    [short]. *)
Inductive Payload :=
| FloatData (l : list spec_float)
| ShortData (l : list (option Z)).

Inductive Event :=
| EvRunFlag (b : bool)                       (* m_run_thread.IsSet() *)
| EvGetBuffersProcessed (n : Z)              (* alGetSourcei AL_BUFFERS_PROCESSED *)
| EvWait                                     (* soundSyncEvent.Wait() *)
| EvUnqueueBuffers (n : Z)                   (* alSourceUnqueueBuffers *)
| EvGetError (e : ALenum)                    (* alGetError *)
| EvErrorLog (desc : string) (e : ALenum) (type : string)
| EvWarnLog (msg : string)
| EvMix (requested returned : Z)             (* m_mixer->Mix *)
| EvPutSamples (samples : list spec_float) (n : Z)
| EvGetCurrentSpeed (r : spec_float)
| EvRequestRefreshInfo
| EvSetTempo (r : spec_float)
| EvClear                                    (* soundTouch.clear() *)
| EvReceiveSamples (max n : Z)
| EvDPL2Decode (n : Z)
| EvBufferData (buffer : Z) (fmt : ALformat) (data : Payload) (size freq : Z)
| EvQueueBuffers (buffer : Z)                (* alSourceQueueBuffers *)
| EvGetSourceState (st : Z)                  (* alGetSourcei AL_SOURCE_STATE *)
| EvSourcePlay                               (* alSourcePlay *)
| EvGenBuffers (n : Z)
| EvGenSources
| EvSourceGain (v : spec_float).

(** ** The time-stretch engine *)

(** The calls the loop makes on the static [soundtouch::SoundTouch] object.
    [receiveSamples] returns the frame count and what it wrote to the output
    buffer. *)
Class SoundTouchAPI (ST : Type) := {
  setChannels : Z -> ST -> ST;
  setSampleRate : Z -> ST -> ST;
  setTempo : spec_float -> ST -> ST;
  setSetting : Z -> Z -> ST -> ST;
  putSamples : list spec_float -> Z -> ST -> ST;
  receiveSamples : Z -> ST -> (Z * list spec_float) * ST;
  clear : ST -> ST
}.

(** ** The state the loop works on *)

(** What lives outside the loop's locals: the error register of the OpenAL
    context, which keeps the first error raised until [alGetError] fetches
    and clears it (the source clears it on line 195 before its first query
    for that reason), and the SoundTouch object. *)
Record Env (ST : Type) := mkEnv {
  al_error : ALenum;
  soundTouch : ST
}.
Arguments mkEnv {ST}.
Arguments al_error {ST}.
Arguments soundTouch {ST}.

(** The locals of [SoundLoop] that live across iterations. *)
Record Locals := mkLocals {
  surround_capable : bool;
  float32_capable : bool;
  nextBuffer : Z;
  numBuffersQueued : Z;
  iState : Z
}.

(** What is fixed once the loop is entered. *)
Record Session := mkSession {
  numBuffers : Z;
  ulFrequency : Z;
  uiBuffers : list Z
}.

(** What the prologue of [SoundLoop] reads. *)
Record InitIn := mkInitIn {
  init_apple : bool;             (* compiled with __APPLE__ defined *)
  init_bDPL2Decoder : bool;      (* SConfig::GetInstance().bDPL2Decoder *)
  init_renderer : string;        (* alGetString(AL_RENDERER) *)
  init_sample_rate : Z;          (* m_mixer->GetSampleRate() *)
  init_iLatency : Z;             (* SConfig::GetInstance().iLatency *)
  init_buffers : list Z;         (* names written by alGenBuffers *)
  init_gen_buffers_err : ALenum; (* error raised by alGenBuffers *)
  init_gen_sources_err : ALenum; (* error raised by alGenSources *)
  init_fVolume : spec_float;
  init_gain_err : ALenum         (* error raised by alSourcef *)
}.

(** What the collaborators answer during one iteration of the loop. *)
Record CycleIn := mkCycleIn {
  in_run : bool;                 (* m_run_thread.IsSet() at the loop head *)
  in_processed : Z;              (* AL_BUFFERS_PROCESSED *)
  in_processed_err : ALenum;     (* error raised by that alGetSourcei *)
  in_unqueue_err : ALenum;       (* error raised by alSourceUnqueueBuffers *)
  in_ticks_per_second : Z;       (* SystemTimers::GetTicksPerSecond() *)
  in_aid_sample_rate : Z;        (* AudioInterface::GetAIDSampleRate() *)
  in_mix : Z * list Z;           (* Mix: frames returned, realtimeBuffer *)
  in_speed : spec_float;         (* first GetCurrentSpeed() *)
  in_speed_again : spec_float;   (* GetCurrentSpeed() after the refresh *)
  in_buffer_err : ALenum;        (* error raised by alBufferData *)
  in_queue_err : ALenum;         (* error raised by alSourceQueueBuffers *)
  in_state : Z;                  (* AL_SOURCE_STATE *)
  in_state_err : ALenum;         (* error raised by that alGetSourcei *)
  in_play_err : ALenum           (* error raised by alSourcePlay *)
}.

(** ** The control surface

    [Start], [Stop], [SetVolume], [Update] and [Clear] run on the caller's
    thread.  They work on the members of the stream object and on the
    SoundTouch object, and are read by the calls they make. *)

Inductive Call :=
| CallFlagSet                                  (* m_run_thread.Set() *)
| CallFlagClear                                (* m_run_thread.Clear() *)
| CallEventSet                                 (* soundSyncEvent.Set() *)
| CallGetNumDevices (n : Z)                    (* pDeviceList.GetNumDevices() *)
| CallInfoLog (fmt name : string)
| CallOpenDevice (name : string) (ok : bool)   (* alcOpenDevice *)
| CallCreateContext (ok : bool)                (* alcCreateContext *)
| CallMakeContextCurrent (context : bool)      (* the context, or nullptr *)
| CallThreadStart                              (* thread = std::thread(...) *)
| CallThreadJoin                               (* thread.join() *)
| CallCloseDevice                              (* alcCloseDevice *)
| CallPanicAlert (fmt name : string)
| CallDPL2Reset
| CallSoundTouchClear                          (* soundTouch.clear() *)
| CallSourceStop (source : Z)                  (* alSourceStop *)
| CallSourceBuffer (source buffer : Z)         (* alSourcei(.., AL_BUFFER, ..) *)
| CallDeleteSources (source : Z)
| CallDeleteBuffers (n : Z)
| CallGetCurrentContext
| CallGetContextsDevice
| CallDestroyContext
| CallSourceGain (source : Z) (gain : spec_float)  (* alSourcef(.., AL_GAIN, ..) *)
| CallSourcePlay (source : Z).

(** How a call ends.  [Aborted]: it does not return.  [std::thread::join]
    throws when the thread is not joinable, and assigning to a joinable
    [std::thread] calls [std::terminate]. *)
Inductive Ending (A : Type) :=
| Returned (a : A)
| Aborted.
Arguments Returned {A}.
Arguments Aborted {A}.

(** What [Start] finds. *)
Record StartIn := mkStartIn {
  start_devices : Z;             (* pDeviceList.GetNumDevices() *)
  start_name : string;           (* name of the default device *)
  start_device_ok : bool;        (* alcOpenDevice returned a device *)
  start_context_ok : bool        (* alcCreateContext returned a context *)
}.

(** Modelled from the spec: [m_run_thread] (a [Common::Flag]) and
    [soundSyncEvent] (a [Common::Event]) are declared outside the sources;
    the spec has the run flag as a boolean signal and the wake signal as a
    single binary event that coalesces notifications.  The other fields are
    the members the control functions use; [thread_joinable] is the state of
    the [std::thread] member. *)
Record Stream (ST : Type) := mkStream {
  m_run_thread : bool;
  soundSyncEvent : bool;
  m_muted : bool;
  fVolume : spec_float;
  uiSource : Z;
  stream_numBuffers : Z;         (* the member numBuffers *)
  thread_joinable : bool;
  stream_soundTouch : ST         (* the static soundTouch *)
}.
Arguments mkStream {ST}.
Arguments m_run_thread {ST}.
Arguments soundSyncEvent {ST}.
Arguments m_muted {ST}.
Arguments fVolume {ST}.
Arguments uiSource {ST}.
Arguments stream_numBuffers {ST}.
Arguments thread_joinable {ST}.
Arguments stream_soundTouch {ST}.

(** The members that [SoundLoop], running on the thread of line 51, writes
    beside the control calls: [numBuffers] (line 184), [uiSource] (lines 187
    and 202), the engine (lines 215-286) and the wake signal, which [Wait()]
    on line 231 takes.  A value of this type is what the thread has made of
    them when a control call returns or the next one begins; the control
    calls do not determine it. *)
Record ThreadIn (ST : Type) := mkThreadIn {
  thread_soundSyncEvent : bool;
  thread_uiSource : Z;
  thread_numBuffers : Z;
  thread_soundTouch : ST
}.
Arguments mkThreadIn {ST}.
Arguments thread_soundSyncEvent {ST}.
Arguments thread_uiSource {ST}.
Arguments thread_numBuffers {ST}.
Arguments thread_soundTouch {ST}.

(** What the loop has left of the wake signal and of the engine when
    [thread.join()] on line 85 returns: the loop's last iterations run beside
    lines 79-83, a [Wait()] takes the signal that line 81 sets, and the
    engine cleared on line 83 is fed and drained until the loop reads the
    run flag. *)
Record JoinIn (ST : Type) := mkJoinIn {
  join_soundSyncEvent : bool;
  join_soundTouch : ST
}.
Arguments mkJoinIn {ST}.
Arguments join_soundSyncEvent {ST}.
Arguments join_soundTouch {ST}.

(** ** A small engine and decoder to run the loop on

    [Toy] implements the engine interface by a queue of samples and a
    remembered tempo: above tempo 1 it plays every other frame, otherwise
    every frame.  The surround decoder copies each stereo frame to the three
    channel pairs. *)

Module Toy.

Record engine_state := mkEngine {
  tempo : spec_float;
  fifo : list spec_float
}.

Fixpoint decimate (l : list spec_float) : list spec_float :=
  match l with
  | a :: b :: _ :: _ :: rest => a :: b :: decimate rest
  | _ => l
  end.

Definition receive (max : Z) (st : engine_state) : (Z * list spec_float) * engine_state :=
  let c := if F64.gt (tempo st) F64.one then decimate (fifo st) else fifo st in
  let n := Z.min max (Z.of_nat (List.length c) / 2) in
  ((n, firstn (Z.to_nat (2 * n)) c), mkEngine (tempo st) (skipn (Z.to_nat (2 * n)) c)).

#[global] Instance api : SoundTouchAPI engine_state := {
  setChannels _ st := st;
  setSampleRate _ st := st;
  setTempo r st := mkEngine r (fifo st);
  setSetting _ _ st := st;
  putSamples samples n st :=
    mkEngine (tempo st) (fifo st ++ firstn (Z.to_nat (2 * n)) samples);
  receiveSamples := receive;
  clear st := mkEngine (tempo st) []
}.

Definition DPL2Decode (samples : list spec_float) (n : Z) : list spec_float :=
  flat_map (fun i => let l := array_get F32.zero samples (2 * i) in
                     let r := array_get F32.zero samples (2 * i + 1) in
                     [l; r; l; r; l; r])
           (seq 0 (Z.to_nat n)).

Definition fresh : Env engine_state := mkEnv AL_NO_ERROR (mkEngine F64.one []).

Definition init : InitIn :=
  mkInitIn false false "OpenAL Soft" 48000 2 [11; 12; 13; 14] AL_NO_ERROR AL_NO_ERROR
           F32.one AL_NO_ERROR.

(** A cycle in which the mixer hands over [samples] (interleaved), the speed
    reads [r], the buffer-data write raises [berr] and the source is in
    state [st]. *)
Definition input (processed : Z) (samples : list Z) (r : spec_float)
    (berr : ALenum) (st : Z) : CycleIn :=
  mkCycleIn true processed AL_NO_ERROR AL_NO_ERROR 486000000 48000
            (Z.of_nat (List.length samples) / 2, samples) r r berr AL_NO_ERROR
            st AL_NO_ERROR AL_NO_ERROR.

Definition cfg : Session := mkSession 4 48000 [11; 12; 13; 14].

Definition stereo_float : Locals := mkLocals false true 0 0 0.
Definition stereo_short : Locals := mkLocals false false 0 0 0.
Definition surround_float : Locals := mkLocals true true 0 0 0.
Definition surround_short : Locals := mkLocals true false 0 0 0.
(** All four buffers queued, the source playing. *)
Definition full : Locals := mkLocals false true 0 4 AL_PLAYING.

Definition frames : list Z := [100; -100; 200; -200].
Definition two : spec_float := F64.of_Z 2.
Definition twenty : spec_float := F64.of_Z 20.

(** Normal speed, everything accepted, the source stopped. *)
Definition plain : CycleIn := input 0 frames F64.one AL_NO_ERROR 0.
(** The buffer-data write is rejected. *)
Definition rejected : CycleIn := input 0 frames F64.one AL_INVALID_ENUM 0.
(** Double speed, then a speed that reads zero twice. *)
Definition fast : CycleIn := input 0 frames two AL_NO_ERROR 0.
Definition stalled : CycleIn := input 0 frames F64.zero AL_NO_ERROR 0.
(** Twenty times the speed. *)
Definition hyper : CycleIn := input 0 frames twenty AL_NO_ERROR 0.
(** The mixer has nothing. *)
Definition silent : CycleIn := input 0 [] F64.one AL_NO_ERROR 0.
(** One buffer has been processed and the source is playing. *)
Definition turnover : CycleIn := input 1 frames F64.one AL_NO_ERROR AL_PLAYING.
(** Three hundred frames from the mixer, enough for the surround decoder. *)
Definition long : CycleIn := input 0 (repeat 100 600) F64.one AL_NO_ERROR 0.
Definition long_rejected : CycleIn := input 0 (repeat 100 600) F64.one AL_INVALID_ENUM 0.
(** The renderer is one of the cards without working float32 support. *)
Definition init_xfi : InitIn :=
  mkInitIn false true "SB X-Fi Audio [0001]" 48000 2 [11; 12; 13; 14] AL_NO_ERROR
           AL_NO_ERROR F32.one AL_NO_ERROR.
(** A stream object before [Start], holding two frames in the engine, and
    one that is streaming from source 7 over four buffers. *)
Definition idle : Stream engine_state :=
  mkStream false false false F32.one 0 0 false
           (mkEngine F64.one [F32.one; F32.one; F32.one; F32.one]).
Definition streaming : Stream engine_state :=
  mkStream true false false F32.one 7 4 true
           (mkEngine F64.one [F32.one; F32.one; F32.one; F32.one]).
(** The thread has created source 7 and four buffers, emptied the engine and
    taken no wake signal; the joined loop has taken the wake signal. *)
Definition thread_begun : ThreadIn engine_state :=
  mkThreadIn false 7 4 (mkEngine F64.one []).
Definition joined : JoinIn engine_state := mkJoinIn false (mkEngine F64.one []).
(** One device that opens and gives a context; one that gives no context;
    one that does not open; no device at all. *)
Definition device_ok : StartIn := mkStartIn 1 "OpenAL Soft" true true.
Definition device_no_context : StartIn := mkStartIn 1 "OpenAL Soft" true false.
Definition device_closed : StartIn := mkStartIn 1 "OpenAL Soft" false true.
Definition no_device : StartIn := mkStartIn 0 "" true true.
(** The run flag reads false. *)
Definition stop : CycleIn :=
  mkCycleIn false 0 AL_NO_ERROR AL_NO_ERROR 486000000 48000 (0, []) F64.one F64.one
            AL_NO_ERROR AL_NO_ERROR 0 AL_NO_ERROR AL_NO_ERROR.

End Toy.

(** ** The monad: environment passing with a trace of actions *)

Section Loop.
Context {ST : Type} `{SoundTouchAPI ST}.
(** The surround decoder, [DPL2Decode(samples, numsamples, out)]: what it
    writes to [out]. *)
Variable DPL2Decode : list spec_float -> Z -> list spec_float.
(** The per-cycle frame limit, a macro of [OpenALStream.h], which is not
    among the sources. *)
Variable OAL_MAX_SAMPLES : Z.

Definition M (A : Type) : Type := Env ST -> (A * Env ST) * list Event.

Definition ret {A} (a : A) : M A := fun e => ((a, e), []).
Definition bind {A B} (m : M A) (k : A -> M B) : M B :=
  fun e =>
    let '((a, e1), t1) := m e in
    let '((b, e2), t2) := k a e1 in
    ((b, e2), t1 ++ t2).
Definition emit (ev : Event) : M unit := fun e => ((tt, e), [ev]).
Definition when (b : bool) (m : M unit) : M unit := if b then m else ret tt.

#[local] Notation "x <- m ;; k" := (bind m (fun x => k))
  (at level 61, m at next level, right associativity).
#[local] Notation "m ;;; k" := (bind m (fun _ => k))
  (at level 61, right associativity).

(** *** The device *)

(** A device call that fails records its error unless one is pending. *)
Definition latch (pending raised : ALenum) : ALenum :=
  if pending =? AL_NO_ERROR then raised else pending.

Definition al_raise (raised : ALenum) : M unit :=
  fun e => ((tt, mkEnv (latch (al_error e) raised) (soundTouch e)), []).

Definition alGetError : M ALenum :=
  fun e => ((al_error e, mkEnv AL_NO_ERROR (soundTouch e)), [EvGetError (al_error e)]).

Definition engine (f : ST -> ST) : M unit :=
  fun e => ((tt, mkEnv (al_error e) (f (soundTouch e))), []).

(** *** [CheckALError], lines 131-165 *)

Definition error_type (err : ALenum) : string :=
  (if (err =? AL_INVALID_NAME)%Z then "AL_INVALID_NAME"
  else if (err =? AL_INVALID_ENUM)%Z then "AL_INVALID_ENUM"
  else if (err =? AL_INVALID_VALUE)%Z then "AL_INVALID_VALUE"
  else if (err =? AL_INVALID_OPERATION)%Z then "AL_INVALID_OPERATION"
  else if (err =? AL_OUT_OF_MEMORY)%Z then "AL_OUT_OF_MEMORY"
  else "UNKNOWN_ERROR")%string.

Definition CheckALError (desc : string) : M ALenum :=
  err <- alGetError ;;
  when (negb (err =? AL_NO_ERROR)) (emit (EvErrorLog desc err (error_type err))) ;;;
  ret err.

(** *** Device and engine calls *)

Definition alGetSourcei_BUFFERS_PROCESSED (i : CycleIn) : M Z :=
  emit (EvGetBuffersProcessed (in_processed i)) ;;;
  al_raise (in_processed_err i) ;;;
  ret (in_processed i).

Definition alSourceUnqueueBuffers (n : Z) (raised : ALenum) : M unit :=
  emit (EvUnqueueBuffers n) ;;; al_raise raised.

Definition alBufferData (buffer : Z) (fmt : ALformat) (data : Payload)
    (size freq : Z) (raised : ALenum) : M unit :=
  emit (EvBufferData buffer fmt data size freq) ;;; al_raise raised.

Definition alSourceQueueBuffers (buffer : Z) (raised : ALenum) : M unit :=
  emit (EvQueueBuffers buffer) ;;; al_raise raised.

Definition alGetSourcei_SOURCE_STATE (i : CycleIn) : M Z :=
  emit (EvGetSourceState (in_state i)) ;;;
  al_raise (in_state_err i) ;;;
  ret (in_state i).

Definition alSourcePlay (raised : ALenum) : M unit :=
  emit EvSourcePlay ;;; al_raise raised.

Definition soundTouch_putSamples (samples : list spec_float) (n : Z) : M unit :=
  emit (EvPutSamples samples n) ;;; engine (putSamples samples n).

Definition soundTouch_setTempo (r : spec_float) : M unit :=
  emit (EvSetTempo r) ;;; engine (setTempo r).

Definition soundTouch_clear : M unit :=
  emit EvClear ;;; engine clear.

Definition soundTouch_receiveSamples (max : Z) : M (Z * list spec_float) :=
  fun e =>
    let '(out, st) := receiveSamples max (soundTouch e) in
    ((out, mkEnv (al_error e) st), [EvReceiveSamples max (fst out)]).

(** *** One iteration of the [while] loop, lines 226-366 *)

(** Lines 246-252, in [u32] and [u64]; a zero divisor is undefined in the
    source and gives the convention of [Z.div] here. *)
Definition num_samples_to_render (ticks_per_second aid_sample_rate : Z) : Z :=
  let stereo_16_bit_size := 4 in
  let dma_length := 32 in
  let ais_samples_per_second := 48000 * stereo_16_bit_size in
  let audio_dma_period :=
    ticks_per_second / (wrap32 (aid_sample_rate * stereo_16_bit_size) / dma_length) in
  wrap64 (audio_dma_period * ais_samples_per_second) / ticks_per_second.

(** Lines 268-273: the speed is read once more when it is not positive. *)
Definition read_rate (i : CycleIn) : M spec_float :=
  emit (EvGetCurrentSpeed (in_speed i)) ;;;
  if F64.le (in_speed i) F64.zero then
    emit EvRequestRefreshInfo ;;;
    emit (EvGetCurrentSpeed (in_speed_again i)) ;;;
    ret (in_speed_again i)
  else ret (in_speed i).

(** Lines 277-284. *)
Definition apply_rate (rate : spec_float) : M unit :=
  when (F64.gt rate F64.tenth)
    (soundTouch_setTempo rate ;;;
     when (F64.gt rate F64.ten) soundTouch_clear).

(** Lines 300-303: the LFE channel of every decoded frame is set to zero. *)
Definition zero_lfe (dpl2 : list spec_float) (nSamples : Z) : list spec_float :=
  fold_left
    (fun a i => array_set a (i * Z.to_nat SURROUND_CHANNELS + 3)%nat F32.zero)
    (seq 0 (Z.to_nat nSamples)) dpl2.

(** How an iteration ends: at the wait (line 232), at the sample-count
    check (line 289), or at the end of the body. *)
Inductive Outcome := Waited | Skipped | Queued.

(** Lines 291-328. *)
Definition encode_surround (cfg : Session) (i : CycleIn) (s : Locals)
    (sampleBuffer : list spec_float) (nSamples : Z) : M Locals :=
  emit (EvDPL2Decode nSamples) ;;;
  let dpl2 := zero_lfe (DPL2Decode sampleBuffer nSamples) nSamples in
  let buffer := array_get 0 (uiBuffers cfg) (Z.to_nat (nextBuffer s)) in
  let count := wrap32 (nSamples * SURROUND_CHANNELS) in
  (if float32_capable s then
     alBufferData buffer AL_FORMAT_51CHN32
       (FloatData (array_map_upto F32.zero (fun x => x) dpl2 count))
       (wrap32 (nSamples * FRAME_SURROUND_FLOAT)) (ulFrequency cfg) (in_buffer_err i)
   else
     let surround_short := array_map_upto F32.zero sample_to_short dpl2 count in
     alBufferData buffer AL_FORMAT_51CHN16 (ShortData surround_short)
       (wrap32 (nSamples * FRAME_SURROUND_SHORT)) (ulFrequency cfg) (in_buffer_err i)) ;;;
  err <- CheckALError "buffering data" ;;
  if err =? AL_INVALID_ENUM then
    emit (EvWarnLog
      "Unable to set 5.1 surround mode.  Updating OpenAL Soft might fix this issue.") ;;;
    ret (mkLocals false (float32_capable s) (nextBuffer s) (numBuffersQueued s) (iState s))
  else ret s.

(** Lines 329-352. *)
Definition encode_stereo (cfg : Session) (i : CycleIn) (s : Locals)
    (sampleBuffer : list spec_float) (nSamples : Z) : M Locals :=
  let buffer := array_get 0 (uiBuffers cfg) (Z.to_nat (nextBuffer s)) in
  let count := wrap32 (nSamples * STEREO_CHANNELS) in
  if float32_capable s then
    alBufferData buffer AL_FORMAT_STEREO_FLOAT32
      (FloatData (array_map_upto F32.zero (fun x => x) sampleBuffer count))
      (wrap32 (nSamples * FRAME_STEREO_FLOAT)) (ulFrequency cfg) (in_buffer_err i) ;;;
    err <- CheckALError "buffering float32 data" ;;
    if err =? AL_INVALID_ENUM then
      ret (mkLocals (surround_capable s) false (nextBuffer s) (numBuffersQueued s)
                    (iState s))
    else ret s
  else
    let stereo := array_map_upto F32.zero sample_to_short sampleBuffer count in
    alBufferData buffer AL_FORMAT_STEREO16 (ShortData stereo)
      (wrap32 (nSamples * FRAME_STEREO_SHORT)) (ulFrequency cfg) (in_buffer_err i) ;;;
    ret s.

(** Lines 354-366; [x % 0] is undefined in the source. *)
Definition queue_and_play (cfg : Session) (i : CycleIn) (s : Locals) : M Locals :=
  alSourceQueueBuffers (array_get 0 (uiBuffers cfg) (Z.to_nat (nextBuffer s)))
    (in_queue_err i) ;;;
  _ <- CheckALError "queuing buffers" ;;
  let queued := wrap32 (numBuffersQueued s + 1) in
  let next := wrap32 (nextBuffer s + 1) mod numBuffers cfg in
  st <- alGetSourcei_SOURCE_STATE i ;;
  when (negb (st =? AL_PLAYING))
    (alSourcePlay (in_play_err i) ;;;
     _ <- CheckALError "occurred resuming playback" ;;
     ret tt) ;;;
  ret (mkLocals (surround_capable s) (float32_capable s) next queued st).

(** Lines 245-286: pull from the mixer, feed the engine, set its tempo and
    drain it.  Returns [nSamples] and the contents of [sampleBuffer]. *)
Definition stretch (cfg : Session) (i : CycleIn) : M (Z * list spec_float) :=
  let numSamples := wrap32 (num_samples_to_render (in_ticks_per_second i)
                                                  (in_aid_sample_rate i)) in
  let numSamples := if OAL_MAX_SAMPLES <? numSamples then OAL_MAX_SAMPLES else numSamples in
  emit (EvMix numSamples (fst (in_mix i))) ;;;
  let numSamples := fst (in_mix i) in
  let realtimeBuffer := snd (in_mix i) in
  let dest := array_map_upto 0 short_to_sample realtimeBuffer
                (wrap32 (numSamples * STEREO_CHANNELS)) in
  soundTouch_putSamples dest numSamples ;;;
  rate <- read_rate i ;;
  apply_rate rate ;;;
  soundTouch_receiveSamples (OAL_MAX_SAMPLES * numBuffers cfg).

(** Lines 291-366: encode by the capability flags, queue, resume. *)
Definition submit (cfg : Session) (i : CycleIn) (s : Locals)
    (sampleBuffer : list spec_float) (nSamples : Z) : M Locals :=
  s1 <- (if surround_capable s then encode_surround cfg i s sampleBuffer nSamples
         else encode_stereo cfg i s sampleBuffer nSamples) ;;
  queue_and_play cfg i s1.

(** Line 256. *)
Definition minSamples (s : Locals) : Z := if surround_capable s then 240 else 0.

(** Lines 245-366, what follows the wait check. *)
Definition cycle_work (cfg : Session) (i : CycleIn) (s : Locals) : M (Outcome * Locals) :=
  out <- stretch cfg i ;;
  let nSamples := fst out in
  let sampleBuffer := snd out in
  if nSamples <=? minSamples s then ret (Skipped, s)
  else
    s2 <- submit cfg i s sampleBuffer nSamples ;;
    ret (Queued, s2).

(** Lines 236-243. *)
Definition reclaim (i : CycleIn) (s : Locals) (numBuffersProcessed : Z) : M Locals :=
  if negb (numBuffersProcessed =? 0) then
    alSourceUnqueueBuffers numBuffersProcessed (in_unqueue_err i) ;;;
    _ <- CheckALError "unqueuing buffers" ;;
    ret (mkLocals (surround_capable s) (float32_capable s) (nextBuffer s)
                  (wrap32 (numBuffersQueued s - numBuffersProcessed))
                  (iState s))
  else ret s.

(** Lines 226-243, then the rest of the body. *)
Definition cycle (cfg : Session) (i : CycleIn) (s : Locals) : M (Outcome * Locals) :=
  numBuffersProcessed <- alGetSourcei_BUFFERS_PROCESSED i ;;
  if (numBuffers cfg =? numBuffersQueued s) && (numBuffersProcessed =? 0) then
    emit EvWait ;;; ret (Waited, s)
  else
    s1 <- reclaim i s numBuffersProcessed ;;
    cycle_work cfg i s1.

(** *** The loop, line 224 *)

(** The loop over the answers of as many iterations as are given: it has
    [Exited] when the run flag read false, and is still [Running] when the
    answers are used up. *)
Inductive LoopResult := Exited (s : Locals) | Running (s : Locals).

Fixpoint SoundLoop_while (cfg : Session) (ins : list CycleIn) (s : Locals)
    : M LoopResult :=
  match ins with
  | [] => ret (Running s)
  | i :: rest =>
      emit (EvRunFlag (in_run i)) ;;;
      if in_run i then
        r <- cycle cfg i s ;;
        SoundLoop_while cfg rest (snd r)
      else ret (Exited s)
  end.

(** *** The prologue, lines 171-222 *)

(** [strstr(haystack, needle) != nullptr]. *)
Definition strstr (haystack needle : string) : bool :=
  match String.index 0 needle haystack with Some _ => true | None => false end.

(** Lines 171-192: the capability flags the loop starts from. *)
Definition probe_capabilities (init : InitIn) : bool * bool :=
  let surround_capable := init_bDPL2Decoder init in
  let float32_capable := negb (init_apple init) in
  let surround_capable := if init_apple init then false else surround_capable in
  let float32_capable :=
    if strstr (init_renderer init) "X-Fi" then false else float32_capable in
  (surround_capable, float32_capable).

Definition soundTouch_setup (ulFrequency : Z) : M unit :=
  engine (setChannels 2) ;;;
  engine (setSampleRate ulFrequency) ;;;
  soundTouch_setTempo F64.one ;;;
  engine (setSetting SETTING_USE_QUICKSEEK 0) ;;;
  engine (setSetting SETTING_USE_AA_FILTER 0) ;;;
  engine (setSetting SETTING_SEQUENCE_MS 1) ;;;
  engine (setSetting SETTING_SEEKWINDOW_MS 28) ;;;
  engine (setSetting SETTING_OVERLAP_MS 12).

Definition prologue (init : InitIn) : M (Session * Locals) :=
  let '(surround_capable, float32_capable) := probe_capabilities init in
  let ulFrequency := init_sample_rate init in
  let numBuffers := init_iLatency init + 2 in
  _ <- alGetError ;;
  emit (EvGenBuffers numBuffers) ;;; al_raise (init_gen_buffers_err init) ;;;
  _ <- CheckALError "generating buffers" ;;
  emit EvGenSources ;;; al_raise (init_gen_sources_err init) ;;;
  _ <- CheckALError "generating sources" ;;
  emit (EvSourceGain (init_fVolume init)) ;;; al_raise (init_gain_err init) ;;;
  soundTouch_setup ulFrequency ;;;
  ret (mkSession numBuffers ulFrequency (init_buffers init),
       mkLocals surround_capable float32_capable 0 0 0).

(** [OpenALStream::SoundLoop], lines 167-368. *)
Definition SoundLoop (init : InitIn) (ins : list CycleIn) : M LoopResult :=
  p <- prologue init ;;
  SoundLoop_while (fst p) ins (snd p).

(** *** The thread beside the control calls *)

(** The members as they are read after the thread, when there is one, has
    run: what the thread writes is the thread's, the rest is as it was. *)
Definition thread_ran (t : ThreadIn ST) (o : Stream ST) : Stream ST :=
  if thread_joinable o then
    mkStream (m_run_thread o) (thread_soundSyncEvent t) (m_muted o) (fVolume o)
             (thread_uiSource t) (thread_numBuffers t) true (thread_soundTouch t)
  else o.

(** *** [Start], lines 27-75 *)

(** [t]: what the thread has done by the time [Start] returns. *)
Definition Start (i : StartIn) (t : ThreadIn ST) (o : Stream ST)
    : (Ending bool * Stream ST) * list Call :=
  let name := start_name i in
  (* lines 70-74 *)
  let finish (bReturn joinable : bool) (calls : list Call) :=
    ((Returned bReturn,
      thread_ran t
        (mkStream true (soundSyncEvent o) (m_muted o) (fVolume o) (uiSource o)
                  (stream_numBuffers o) joinable (clear (stream_soundTouch o)))),
     CallFlagSet :: CallGetNumDevices (start_devices i) :: calls
     ++ [CallDPL2Reset; CallSoundTouchClear]) in
  if negb (start_devices i =? 0) then
    let found := [CallInfoLog "Found OpenAL device %s" name;
                  CallOpenDevice name (start_device_ok i)] in
    if start_device_ok i then
      if start_context_ok i then
        if thread_joinable o then
          ((Aborted,
            mkStream true (soundSyncEvent o) (m_muted o) (fVolume o) (uiSource o)
                     (stream_numBuffers o) true (stream_soundTouch o)),
           CallFlagSet :: CallGetNumDevices (start_devices i) :: found
           ++ [CallCreateContext true; CallMakeContextCurrent true])
        else
          finish true true
            (found ++ [CallCreateContext true; CallMakeContextCurrent true;
                       CallThreadStart])
      else
        finish false (thread_joinable o)
          (found ++ [CallCreateContext false; CallCloseDevice;
                     CallPanicAlert "OpenAL: can't create context for device %s" name])
    else
      finish false (thread_joinable o)
        (found ++ [CallPanicAlert "OpenAL: can't open device %s" name])
  else
    finish false (thread_joinable o)
      [CallPanicAlert "OpenAL: can't find sound devices" ""].

(** *** [Stop], lines 77-101 *)

(** [o] has [uiSource] and [numBuffers] as lines 87-93 read them: the thread
    writes them in its prologue only.  [j]: the wake signal and the engine
    as the joined loop leaves them. *)
Definition Stop (j : JoinIn ST) (o : Stream ST) : (Ending unit * Stream ST) * list Call :=
  let signalled := [CallFlagClear; CallEventSet; CallSoundTouchClear; CallThreadJoin] in
  if thread_joinable o then
    ((Returned tt,
      mkStream false (join_soundSyncEvent j) (m_muted o) (fVolume o) 0
               (stream_numBuffers o) false (join_soundTouch j)),
     signalled
     ++ [CallSourceStop (uiSource o); CallSourceBuffer (uiSource o) 0;
         CallDeleteSources (uiSource o); CallDeleteBuffers (stream_numBuffers o);
         CallGetCurrentContext; CallGetContextsDevice;
         CallMakeContextCurrent false; CallDestroyContext; CallCloseDevice])
  else
    ((Aborted,
      mkStream false true (m_muted o) (fVolume o) (uiSource o) (stream_numBuffers o)
               false (clear (stream_soundTouch o))),
     signalled).

(** *** [SetVolume], lines 103-109 *)

(** [(float)volume / 100.0f]. *)
Definition volume_gain (volume : Z) : spec_float :=
  F32.div (F32.of_Z volume) (F32.of_Z 100).

Definition SetVolume (volume : Z) (o : Stream ST) : Stream ST * list Call :=
  let gain := volume_gain volume in
  (mkStream (m_run_thread o) (soundSyncEvent o) (m_muted o) gain (uiSource o)
            (stream_numBuffers o) (thread_joinable o) (stream_soundTouch o),
   if negb (uiSource o =? 0) then [CallSourceGain (uiSource o) gain] else []).

(** *** [Update], lines 111-114 *)

Definition Update (o : Stream ST) : Stream ST * list Call :=
  (mkStream (m_run_thread o) true (m_muted o) (fVolume o) (uiSource o)
            (stream_numBuffers o) (thread_joinable o) (stream_soundTouch o),
   [CallEventSet]).

(** *** [Clear], lines 116-129 *)

Definition Clear (mute : bool) (o : Stream ST) : Stream ST * list Call :=
  if mute then
    (mkStream (m_run_thread o) (soundSyncEvent o) true (fVolume o) (uiSource o)
              (stream_numBuffers o) (thread_joinable o) (clear (stream_soundTouch o)),
     [CallSoundTouchClear; CallSourceStop (uiSource o)])
  else
    (mkStream (m_run_thread o) (soundSyncEvent o) false (fVolume o) (uiSource o)
              (stream_numBuffers o) (thread_joinable o) (stream_soundTouch o),
     [CallSourcePlay (uiSource o)]).

(** How often a call of a kind occurs in a list of calls. *)
Definition calls_of (p : Call -> bool) (t : list Call) : nat :=
  List.length (filter p t).

Definition is_panic (c : Call) : bool :=
  match c with CallPanicAlert _ _ => true | _ => false end.
Definition is_thread_start (c : Call) : bool :=
  match c with CallThreadStart => true | _ => false end.
Definition is_close_device (c : Call) : bool :=
  match c with CallCloseDevice => true | _ => false end.
Definition is_open_device (c : Call) : bool :=
  match c with CallOpenDevice _ _ => true | _ => false end.
Definition is_source_gain (c : Call) : bool :=
  match c with CallSourceGain _ _ => true | _ => false end.

(** The position of the first occurrence of a call in a list. *)
Fixpoint position (p : Call -> bool) (t : list Call) : option nat :=
  match t with
  | [] => None
  | c :: t' => if p c then Some O else option_map S (position p t')
  end.

(** How often an action of a kind occurs in a trace of the loop. *)
Definition occurrences (p : Event -> bool) (t : list Event) : nat :=
  List.length (filter p t).

Definition is_mix (ev : Event) : bool :=
  match ev with EvMix _ _ => true | _ => false end.
Definition is_put (ev : Event) : bool :=
  match ev with EvPutSamples _ _ => true | _ => false end.
Definition is_receive (ev : Event) : bool :=
  match ev with EvReceiveSamples _ _ => true | _ => false end.
Definition is_speed_read (ev : Event) : bool :=
  match ev with EvGetCurrentSpeed _ => true | _ => false end.
Definition is_set_tempo (ev : Event) : bool :=
  match ev with EvSetTempo _ => true | _ => false end.
Definition is_run_flag (ev : Event) : bool :=
  match ev with EvRunFlag _ => true | _ => false end.

(** The frame counts asked of the mixer in a trace. *)
Fixpoint frames_requested (t : list Event) : list Z :=
  match t with
  | [] => []
  | EvMix requested _ :: t' => requested :: frames_requested t'
  | _ :: t' => frames_requested t'
  end.

(** Whether the conversions of lines 264 and 347 give a 16-bit sample back,
    and whether the converted sample lies in [-1, 1). *)
Definition short_round_trips (x : Z) : bool :=
  match sample_to_short (short_to_sample x) with
  | Some y => x =? y
  | None => false
  end.
Definition sample_in_unit_range (x : Z) : bool :=
  SFleb (F32.of_Z (-1)) (short_to_sample x) && SFltb (short_to_sample x) F32.one.

(** A check of every 16-bit sample, high and low byte in turn. *)
Definition octets : list Z := map Z.of_nat (seq 0 (Z.to_nat 256)).
Definition every_short (f : Z -> bool) : bool :=
  forallb (fun hi => forallb (fun lo => f (256 * hi + lo + SHRT_MIN)) octets) octets.

(** The volumes of the configuration, 0 to 100 percent. *)
Definition all_volumes : list Z := map Z.of_nat (seq 0 (Z.to_nat 101)).

(** ** Reading a computation *)

Definition run_value {A} (m : M A) (e : Env ST) : A := fst (fst (m e)).
Definition run_env {A} (m : M A) (e : Env ST) : Env ST := snd (fst (m e)).
Definition run_events {A} (m : M A) (e : Env ST) : list Event := snd (m e).

(** The locals a loop result carries. *)
Definition locals_of (r : LoopResult) : Locals :=
  match r with Exited s | Running s => s end.

(** ** The phases of a cycle, spelled out

    What each phase returns, leaves pending in the error register and writes
    to the trace, as functions of the answers of the cycle.  The [_run]
    lemmas below prove that the monadic code computes exactly these. *)

Definition log_events (desc : string) (err : ALenum) : list Event :=
  if err =? AL_NO_ERROR then [] else [EvErrorLog desc err (error_type err)].

(** The condition of line 229. *)
Definition wait_cond (cfg : Session) (i : CycleIn) (s : Locals) : bool :=
  (numBuffers cfg =? numBuffersQueued s) && (in_processed i =? 0).

(** The error pending after the query of line 228. *)
Definition pending_at_entry (i : CycleIn) (e : Env ST) : ALenum :=
  latch (al_error e) (in_processed_err i).

Definition reclaimed (i : CycleIn) (s : Locals) : Locals :=
  if in_processed i =? 0 then s
  else mkLocals (surround_capable s) (float32_capable s) (nextBuffer s)
                (wrap32 (numBuffersQueued s - in_processed i)) (iState s).

Definition pending_after_reclaim (i : CycleIn) (pending : ALenum) : ALenum :=
  if in_processed i =? 0 then pending else AL_NO_ERROR.

Definition reclaim_events (i : CycleIn) (pending : ALenum) : list Event :=
  if in_processed i =? 0 then []
  else [EvUnqueueBuffers (in_processed i);
        EvGetError (latch pending (in_unqueue_err i))]
       ++ log_events "unqueuing buffers" (latch pending (in_unqueue_err i)).

(** The tempo multiplier of the cycle: the second reading when the first is
    not positive. *)
Definition final_rate (i : CycleIn) : spec_float :=
  if F64.le (in_speed i) F64.zero then in_speed_again i else in_speed i.

Definition rate_events (i : CycleIn) : list Event :=
  EvGetCurrentSpeed (in_speed i)
  :: (if F64.le (in_speed i) F64.zero
      then [EvRequestRefreshInfo; EvGetCurrentSpeed (in_speed_again i)] else []).

Definition tempo_events (r : spec_float) : list Event :=
  if F64.gt r F64.tenth
  then EvSetTempo r :: (if F64.gt r F64.ten then [EvClear] else [])
  else [].

Definition tempo_engine (r : spec_float) (st : ST) : ST :=
  if F64.gt r F64.tenth
  then (if F64.gt r F64.ten then clear (setTempo r st) else setTempo r st)
  else st.

(** The frames asked of the mixer, and the samples handed to the engine. *)
Definition requested (i : CycleIn) : Z :=
  let n := wrap32 (num_samples_to_render (in_ticks_per_second i) (in_aid_sample_rate i)) in
  if OAL_MAX_SAMPLES <? n then OAL_MAX_SAMPLES else n.

Definition ingested (i : CycleIn) : list spec_float :=
  array_map_upto 0 short_to_sample (snd (in_mix i))
                 (wrap32 (fst (in_mix i) * STEREO_CHANNELS)).

(** The engine calls of one cycle: put, tempo policy, receive. *)
Definition drain (cfg : Session) (i : CycleIn) (st : ST) : (Z * list spec_float) * ST :=
  receiveSamples (OAL_MAX_SAMPLES * numBuffers cfg)
    (tempo_engine (final_rate i) (putSamples (ingested i) (fst (in_mix i)) st)).

(** [nSamples] of the cycle. *)
Definition drained_count (cfg : Session) (i : CycleIn) (st : ST) : Z :=
  fst (fst (drain cfg i st)).

Definition stretch_events (cfg : Session) (i : CycleIn) (st : ST) : list Event :=
  [EvMix (requested i) (fst (in_mix i)); EvPutSamples (ingested i) (fst (in_mix i))]
  ++ rate_events i ++ tempo_events (final_rate i)
  ++ [EvReceiveSamples (OAL_MAX_SAMPLES * numBuffers cfg) (drained_count cfg i st)].

Definition buffer_of (cfg : Session) (s : Locals) : Z :=
  array_get 0 (uiBuffers cfg) (Z.to_nat (nextBuffer s)).

(** The format chosen by the capability flags. *)
Definition format_of (s : Locals) : ALformat :=
  if surround_capable s
  then (if float32_capable s then AL_FORMAT_51CHN32 else AL_FORMAT_51CHN16)
  else (if float32_capable s then AL_FORMAT_STEREO_FLOAT32 else AL_FORMAT_STEREO16).

Definition payload_of (s : Locals) (sampleBuffer : list spec_float) (n : Z) : Payload :=
  if surround_capable s then
    let dpl2 := zero_lfe (DPL2Decode sampleBuffer n) n in
    let count := wrap32 (n * SURROUND_CHANNELS) in
    if float32_capable s then FloatData (array_map_upto F32.zero (fun x => x) dpl2 count)
    else ShortData (array_map_upto F32.zero sample_to_short dpl2 count)
  else
    let count := wrap32 (n * STEREO_CHANNELS) in
    if float32_capable s
    then FloatData (array_map_upto F32.zero (fun x => x) sampleBuffer count)
    else ShortData (array_map_upto F32.zero sample_to_short sampleBuffer count).

Definition size_of (s : Locals) (n : Z) : Z :=
  wrap32 (n * (if surround_capable s
               then (if float32_capable s then FRAME_SURROUND_FLOAT else FRAME_SURROUND_SHORT)
               else (if float32_capable s then FRAME_STEREO_FLOAT else FRAME_STEREO_SHORT))).

Definition write_event (cfg : Session) (s : Locals) (sampleBuffer : list spec_float)
    (n : Z) : Event :=
  EvBufferData (buffer_of cfg s) (format_of s) (payload_of s sampleBuffer n)
               (size_of s n) (ulFrequency cfg).

(** A flag is cleared when the error fetched after the write is
    [AL_INVALID_ENUM]; the 16-bit stereo path fetches none. *)
Definition encoded (i : CycleIn) (s : Locals) (pending : ALenum) : Locals :=
  let p := latch pending (in_buffer_err i) in
  if surround_capable s then
    if p =? AL_INVALID_ENUM
    then mkLocals false (float32_capable s) (nextBuffer s) (numBuffersQueued s) (iState s)
    else s
  else if float32_capable s then
    if p =? AL_INVALID_ENUM
    then mkLocals (surround_capable s) false (nextBuffer s) (numBuffersQueued s) (iState s)
    else s
  else s.

Definition pending_after_encode (i : CycleIn) (s : Locals) (pending : ALenum) : ALenum :=
  if surround_capable s || float32_capable s then AL_NO_ERROR
  else latch pending (in_buffer_err i).

Definition encode_events (cfg : Session) (i : CycleIn) (s : Locals)
    (sampleBuffer : list spec_float) (n : Z) (pending : ALenum) : list Event :=
  let p := latch pending (in_buffer_err i) in
  if surround_capable s then
    [EvDPL2Decode n; write_event cfg s sampleBuffer n; EvGetError p]
    ++ log_events "buffering data" p
    ++ (if p =? AL_INVALID_ENUM
        then [EvWarnLog
          "Unable to set 5.1 surround mode.  Updating OpenAL Soft might fix this issue."]
        else [])
  else if float32_capable s then
    [write_event cfg s sampleBuffer n; EvGetError p]
    ++ log_events "buffering float32 data" p
  else [write_event cfg s sampleBuffer n].

Definition queued (cfg : Session) (i : CycleIn) (s : Locals) : Locals :=
  mkLocals (surround_capable s) (float32_capable s)
           (wrap32 (nextBuffer s + 1) mod numBuffers cfg)
           (wrap32 (numBuffersQueued s + 1)) (in_state i).

(** The error left pending by the state query of line 360: the check on
    line 365 fetches it when playback is resumed. *)
Definition pending_after_queue (i : CycleIn) : ALenum :=
  if in_state i =? AL_PLAYING then in_state_err i else AL_NO_ERROR.

Definition play_events (i : CycleIn) : list Event :=
  if in_state i =? AL_PLAYING then []
  else [EvSourcePlay; EvGetError (latch (in_state_err i) (in_play_err i))]
       ++ log_events "occurred resuming playback"
            (latch (in_state_err i) (in_play_err i)).

Definition queue_events (cfg : Session) (i : CycleIn) (s : Locals) (pending : ALenum)
    : list Event :=
  let p := latch pending (in_queue_err i) in
  [EvQueueBuffers (buffer_of cfg s); EvGetError p]
  ++ log_events "queuing buffers" p
  ++ [EvGetSourceState (in_state i)] ++ play_events i.

(** What a cycle writes up to the sample-count check, and after it. *)
Definition front_events (cfg : Session) (i : CycleIn) (e : Env ST) : list Event :=
  EvGetBuffersProcessed (in_processed i)
  :: reclaim_events i (pending_at_entry i e) ++ stretch_events cfg i (soundTouch e).

(** The error pending when the buffer-data write is made. *)
Definition pending_at_write (i : CycleIn) (e : Env ST) : ALenum :=
  pending_after_reclaim i (pending_at_entry i e).

Definition back_events (cfg : Session) (i : CycleIn) (s : Locals) (e : Env ST)
    : list Event :=
  let s1 := reclaimed i s in
  let p1 := pending_at_write i e in
  let out := fst (drain cfg i (soundTouch e)) in
  encode_events cfg i s1 (snd out) (fst out) p1
  ++ queue_events cfg i (encoded i s1 p1) (pending_after_encode i s1 p1).

(** The formats of the buffer-data writes of a trace, in order. *)
Fixpoint formats_written (t : list Event) : list ALformat :=
  match t with
  | [] => []
  | EvBufferData _ fmt _ _ _ :: t' => fmt :: formats_written t'
  | _ :: t' => formats_written t'
  end.

(** The buffers queued by a trace, in order. *)
Fixpoint buffers_queued (t : list Event) : list Z :=
  match t with
  | [] => []
  | EvQueueBuffers b :: t' => b :: buffers_queued t'
  | _ :: t' => buffers_queued t'
  end.

(** What a trace sends to the error log: description and error code. *)
Fixpoint errors_logged (t : list Event) : list (string * ALenum) :=
  match t with
  | [] => []
  | EvErrorLog desc err _ :: t' => (desc, err) :: errors_logged t'
  | _ :: t' => errors_logged t'
  end.

(** One step down in fidelity. *)
Definition lowered (fmt : ALformat) : ALformat :=
  match fmt with
  | AL_FORMAT_51CHN32 => AL_FORMAT_STEREO_FLOAT32
  | AL_FORMAT_51CHN16 => AL_FORMAT_STEREO16
  | AL_FORMAT_STEREO_FLOAT32 => AL_FORMAT_STEREO16
  | AL_FORMAT_STEREO16 => AL_FORMAT_STEREO16
  end.


(** ** The monadic code computes the spelled-out phases *)

Lemma bind_run {A B} (m : M A) (k : A -> M B) (e : Env ST) a e1 t1 :
  m e = ((a, e1), t1) ->
  bind m k e = (fst (k a e1), t1 ++ snd (k a e1)).
Proof.
  intros Hm. unfold bind. rewrite Hm.
  destruct (k a e1) as [[b e2] t2]. reflexivity.
Qed.

Lemma bind_assoc {A B C} (m : M A) (k : A -> M B) (k' : B -> M C) (e : Env ST) :
  bind (bind m k) k' e = bind m (fun a => bind (k a) k') e.
Proof.
  unfold bind. destruct (m e) as [[a e1] t1].
  destruct (k a e1) as [[b e2] t2]. destruct (k' b e2) as [[c e3] t3].
  rewrite app_assoc. reflexivity.
Qed.

Lemma CheckALError_run desc (e : Env ST) :
  CheckALError desc e =
  ((al_error e, mkEnv AL_NO_ERROR (soundTouch e)),
   EvGetError (al_error e) :: log_events desc (al_error e)).
Proof.
  unfold CheckALError, bind, alGetError, when, emit, ret, log_events.
  destruct (al_error e =? AL_NO_ERROR); reflexivity.
Qed.

(** One [bind] at a time: run the first action, keep the continuation. *)
Ltac run_step :=
  first [ rewrite bind_assoc
        | erewrite bind_run by first [apply CheckALError_run | reflexivity] ];
  cbn [fst snd al_error soundTouch app].

Ltac run_done :=
  unfold ret, emit; cbn [fst snd al_error soundTouch app];
  rewrite ?app_nil_r; try reflexivity.

Lemma reclaim_run i s (e : Env ST) :
  reclaim i s (in_processed i) e =
  ((reclaimed i s, mkEnv (pending_after_reclaim i (al_error e)) (soundTouch e)),
   reclaim_events i (al_error e)).
Proof.
  unfold reclaim, reclaimed, pending_after_reclaim, reclaim_events.
  destruct (in_processed i =? 0); cbn [negb].
  - destruct e; reflexivity.
  - unfold alSourceUnqueueBuffers. repeat run_step. run_done.
Qed.

Lemma stretch_run cfg i (e : Env ST) :
  stretch cfg i e =
  ((fst (drain cfg i (soundTouch e)),
    mkEnv (al_error e) (snd (drain cfg i (soundTouch e)))),
   stretch_events cfg i (soundTouch e)).
Proof.
  unfold stretch, stretch_events, drained_count, drain, tempo_engine, tempo_events,
    rate_events, final_rate, read_rate, apply_rate, when, soundTouch_putSamples,
    soundTouch_setTempo, soundTouch_clear, soundTouch_receiveSamples, engine,
    requested, ingested, bind, emit, ret.
  cbn [al_error soundTouch fst snd].
  destruct (F64.le (in_speed i) F64.zero); cbn [al_error soundTouch fst snd];
    match goal with |- context [F64.gt ?r F64.tenth] =>
      destruct (F64.gt r F64.tenth); cbn [al_error soundTouch fst snd];
      [destruct (F64.gt r F64.ten); cbn [al_error soundTouch fst snd]|]
    end;
    match goal with |- context [receiveSamples ?m ?st] =>
      destruct (receiveSamples m st) as [out st']
    end; reflexivity.
Qed.

Lemma encode_surround_run cfg i s buf n (e : Env ST) :
  surround_capable s = true ->
  encode_surround cfg i s buf n e =
  ((encoded i s (al_error e), mkEnv AL_NO_ERROR (soundTouch e)),
   encode_events cfg i s buf n (al_error e)).
Proof.
  intros Hs.
  unfold encode_surround, encoded, encode_events, write_event, format_of, payload_of,
    size_of, buffer_of, alBufferData. rewrite Hs.
  run_step.
  destruct (float32_capable s); repeat run_step;
    destruct (latch (al_error e) (in_buffer_err i) =? AL_INVALID_ENUM);
    repeat run_step; run_done.
Qed.

Lemma encode_stereo_run cfg i s buf n (e : Env ST) :
  surround_capable s = false ->
  encode_stereo cfg i s buf n e =
  ((encoded i s (al_error e),
    mkEnv (pending_after_encode i s (al_error e)) (soundTouch e)),
   encode_events cfg i s buf n (al_error e)).
Proof.
  intros Hs.
  unfold encode_stereo, encoded, encode_events, write_event, format_of, payload_of,
    size_of, buffer_of, pending_after_encode, alBufferData. rewrite Hs.
  destruct (float32_capable s); cbn [orb].
  - repeat run_step.
    destruct (latch (al_error e) (in_buffer_err i) =? AL_INVALID_ENUM); run_done.
  - repeat run_step. run_done.
Qed.

Lemma queue_and_play_run cfg i s (e : Env ST) :
  queue_and_play cfg i s e =
  ((queued cfg i s, mkEnv (pending_after_queue i) (soundTouch e)),
   queue_events cfg i s (al_error e)).
Proof.
  unfold queue_and_play, queued, queue_events, play_events, pending_after_queue,
    buffer_of, alSourceQueueBuffers, alGetSourcei_SOURCE_STATE, alSourcePlay, when.
  repeat run_step.
  destruct (in_state i =? AL_PLAYING); cbn [negb]; repeat run_step; run_done.
Qed.

Lemma submit_run cfg i s buf n (e : Env ST) :
  submit cfg i s buf n e =
  ((queued cfg i (encoded i s (al_error e)),
    mkEnv (pending_after_queue i) (soundTouch e)),
   encode_events cfg i s buf n (al_error e)
   ++ queue_events cfg i (encoded i s (al_error e))
        (pending_after_encode i s (al_error e))).
Proof.
  unfold submit. destruct (surround_capable s) eqn:Hs.
  - erewrite bind_run by (apply encode_surround_run; exact Hs).
    rewrite queue_and_play_run. unfold pending_after_encode. rewrite Hs. reflexivity.
  - erewrite bind_run by (apply encode_stereo_run; exact Hs).
    rewrite queue_and_play_run. reflexivity.
Qed.

Lemma minSamples_reclaimed i s : minSamples (reclaimed i s) = minSamples s.
Proof. unfold reclaimed, minSamples. destruct (in_processed i =? 0); reflexivity. Qed.

Lemma cycle_waited cfg i s (e : Env ST) :
  wait_cond cfg i s = true ->
  cycle cfg i s e =
  ((Waited, s), mkEnv (pending_at_entry i e) (soundTouch e),
   [EvGetBuffersProcessed (in_processed i); EvWait]).
Proof.
  intros Hw. unfold cycle, alGetSourcei_BUFFERS_PROCESSED.
  repeat run_step. unfold wait_cond in Hw. rewrite Hw. reflexivity.
Qed.

Lemma cycle_skipped cfg i s (e : Env ST) :
  wait_cond cfg i s = false ->
  (drained_count cfg i (soundTouch e) <=? minSamples s) = true ->
  cycle cfg i s e =
  ((Skipped, reclaimed i s),
   mkEnv (pending_at_write i e) (snd (drain cfg i (soundTouch e))),
   front_events cfg i e).
Proof.
  intros Hw Hn. unfold cycle, alGetSourcei_BUFFERS_PROCESSED.
  repeat run_step. unfold wait_cond in Hw. rewrite Hw.
  erewrite bind_run by apply reclaim_run.
  unfold cycle_work.
  erewrite bind_run by apply stretch_run.
  cbn [fst snd al_error soundTouch].
  rewrite minSamples_reclaimed. unfold drained_count in Hn. rewrite Hn.
  unfold front_events. run_done.
Qed.

Lemma cycle_queued cfg i s (e : Env ST) :
  wait_cond cfg i s = false ->
  (drained_count cfg i (soundTouch e) <=? minSamples s) = false ->
  cycle cfg i s e =
  ((Queued,
    queued cfg i (encoded i (reclaimed i s) (pending_at_write i e))),
   mkEnv (pending_after_queue i) (snd (drain cfg i (soundTouch e))),
   front_events cfg i e ++ back_events cfg i s e).
Proof.
  intros Hw Hn. unfold cycle, alGetSourcei_BUFFERS_PROCESSED.
  repeat run_step. unfold wait_cond in Hw. rewrite Hw.
  erewrite bind_run by apply reclaim_run.
  unfold cycle_work.
  erewrite bind_run by apply stretch_run.
  cbn [fst snd al_error soundTouch].
  rewrite minSamples_reclaimed. unfold drained_count in Hn. rewrite Hn.
  erewrite bind_run by apply submit_run.
  unfold front_events, back_events. run_done.
  cbn [app]. rewrite <- !app_assoc. reflexivity.
Qed.

(** The three ways a cycle can end. *)
Lemma cycle_cases cfg i s (e : Env ST) :
  (wait_cond cfg i s = true /\
   cycle cfg i s e =
   ((Waited, s), mkEnv (pending_at_entry i e) (soundTouch e),
    [EvGetBuffersProcessed (in_processed i); EvWait]))
  \/ (wait_cond cfg i s = false /\
      (drained_count cfg i (soundTouch e) <=? minSamples s) = true /\
      cycle cfg i s e =
      ((Skipped, reclaimed i s),
       mkEnv (pending_at_write i e) (snd (drain cfg i (soundTouch e))),
       front_events cfg i e))
  \/ (wait_cond cfg i s = false /\
      (drained_count cfg i (soundTouch e) <=? minSamples s) = false /\
      cycle cfg i s e =
      ((Queued,
        queued cfg i (encoded i (reclaimed i s) (pending_at_write i e))),
       mkEnv (pending_after_queue i) (snd (drain cfg i (soundTouch e))),
       front_events cfg i e ++ back_events cfg i s e)).
Proof.
  destruct (wait_cond cfg i s) eqn:Hw.
  - left. split; [reflexivity | apply cycle_waited; exact Hw].
  - right.
    destruct (drained_count cfg i (soundTouch e) <=? minSamples s) eqn:Hn.
    + left. repeat split. apply cycle_skipped; assumption.
    + right. repeat split. apply cycle_queued; assumption.
Qed.

(** ** The loop *)

Lemma SoundLoop_while_exit cfg i rest s (e : Env ST) :
  in_run i = false ->
  SoundLoop_while cfg (i :: rest) s e = ((Exited s, e), [EvRunFlag false]).
Proof. intros Hr. cbn [SoundLoop_while]. rewrite Hr. reflexivity. Qed.

Lemma SoundLoop_while_step cfg i rest s (e : Env ST) :
  in_run i = true ->
  SoundLoop_while cfg (i :: rest) s e =
  (fst (SoundLoop_while cfg rest (snd (run_value (cycle cfg i s) e))
          (run_env (cycle cfg i s) e)),
   EvRunFlag true :: run_events (cycle cfg i s) e
   ++ snd (SoundLoop_while cfg rest (snd (run_value (cycle cfg i s) e))
             (run_env (cycle cfg i s) e))).
Proof.
  intros Hr. cbn [SoundLoop_while]. rewrite Hr.
  unfold run_value, run_env, run_events, bind, emit.
  destruct (cycle cfg i s e) as [[r e1] t1]. cbn [fst snd].
  destruct (SoundLoop_while cfg rest (snd r) e1) as [[r' e2] t2]. reflexivity.
Qed.

Lemma SoundLoop_while_app cfg pre post s (e : Env ST) :
  run_value (SoundLoop_while cfg (pre ++ post) s) e =
  match run_value (SoundLoop_while cfg pre s) e with
  | Running s1 =>
      run_value (SoundLoop_while cfg post s1) (run_env (SoundLoop_while cfg pre s) e)
  | Exited s1 => Exited s1
  end.
Proof.
  revert s e. induction pre as [| i pre IH]; intros s e; [reflexivity |].
  cbn [app]. unfold run_value, run_env in *. destruct (in_run i) eqn:Hr.
  - rewrite !(SoundLoop_while_step cfg i _ s e Hr). cbn [fst snd].
    apply IH.
  - rewrite !(SoundLoop_while_exit cfg i _ s e Hr). reflexivity.
Qed.

Lemma prologue_run init (e : Env ST) :
  run_value (prologue init) e =
  (mkSession (init_iLatency init + 2) (init_sample_rate init) (init_buffers init),
   mkLocals (fst (probe_capabilities init)) (snd (probe_capabilities init)) 0 0 0).
Proof.
  unfold run_value, prologue.
  destruct (probe_capabilities init) as [sc fc].
  repeat run_step. reflexivity.
Qed.

Lemma SoundLoop_run init ins (e : Env ST) :
  run_value (SoundLoop init ins) e =
  run_value (SoundLoop_while (fst (run_value (prologue init) e)) ins
               (snd (run_value (prologue init) e)))
            (run_env (prologue init) e).
Proof.
  unfold SoundLoop, run_value, run_env, bind.
  destruct (prologue init e) as [[p e1] t1]. cbn [fst snd].
  destruct (SoundLoop_while (fst p) ins (snd p) e1) as [[r e2] t2]. reflexivity.
Qed.

(** ** Comparisons of doubles with the thresholds *)

Lemma F64_ten_eq : F64.ten = S754_finite false 5629499534213120 (-49).
Proof. reflexivity. Qed.

Lemma F64_gt_ten_gt_tenth r : F64.gt r F64.ten = true -> F64.gt r F64.tenth = true.
Proof.
  unfold F64.gt, SFltb. rewrite F64_ten_eq. unfold F64.tenth.
  destruct r as [sz | si | | sf m ex]; cbn [SFcompare]; try congruence;
    try (destruct si; congruence).
  destruct sf; try congruence.
  destruct (Z.compare_spec (-49) ex), (Z.compare_spec (-56) ex);
    try lia; congruence.
Qed.

Lemma F64_gt_ten_not_le_zero r : F64.gt r F64.ten = true -> F64.le r F64.zero = false.
Proof.
  unfold F64.gt, F64.le, SFltb, SFleb. rewrite F64_ten_eq. unfold F64.zero.
  destruct r as [sz | si | | sf m ex]; cbn [SFcompare]; try congruence;
    try (destruct si; congruence); try (destruct sf; congruence).
Qed.

Lemma F64_le_not_gt r t : F64.le r t = true -> F64.gt r t = false.
Proof.
  unfold F64.gt, F64.le, SFltb, SFleb.
  destruct r as [s1 | s1 | | s1 m1 e1], t as [s2 | s2 | | s2 m2 e2];
    cbn [SFcompare];
    repeat match goal with b : bool |- _ => destruct b end;
    try congruence;
    rewrite (Z.compare_antisym e1 e2);
    (destruct (e1 ?= e2); cbn [CompOpp]; try congruence);
    (assert (Hanti : Pos.compare_cont Eq m2 m1 = CompOpp (Pos.compare_cont Eq m1 m2))
      by (rewrite Pos.compare_cont_antisym; reflexivity));
    rewrite Hanti;
    destruct (Pos.compare_cont Eq m1 m2); cbn [CompOpp]; congruence.
Qed.

(** ** Membership in the trace of a cycle *)

Ltac split_in :=
  repeat match goal with
  | H : In _ (_ ++ _) |- _ => apply in_app_or in H; destruct H as [H | H]
  | H : In _ (_ :: _) |- _ => destruct H as [H | H]; [try discriminate H |]
  | H : In _ [] |- _ => destruct H
  | H : In _ (if ?c then _ else _) |- _ => destruct c eqn:?
  end.

Ltac open_events H :=
  unfold front_events, back_events, stretch_events, reclaim_events, rate_events,
    tempo_events, encode_events, queue_events, play_events, log_events, write_event in H;
  cbv zeta in H.

Lemma buffer_of_encoded cfg i s p :
  buffer_of cfg (encoded i (reclaimed i s) p) = buffer_of cfg s.
Proof.
  unfold buffer_of, encoded, reclaimed.
  destruct (in_processed i =? 0), (surround_capable s), (float32_capable s);
    cbn [surround_capable float32_capable nextBuffer];
    try destruct (latch p (in_buffer_err i) =? AL_INVALID_ENUM); reflexivity.
Qed.

Lemma no_wait_front cfg i (e : Env ST) : ~ In EvWait (front_events cfg i e).
Proof. intros Hin. open_events Hin. split_in; discriminate. Qed.

Lemma no_wait_back cfg i s (e : Env ST) : ~ In EvWait (back_events cfg i s e).
Proof. intros Hin. open_events Hin. split_in; discriminate. Qed.

Lemma wait_cond_spec cfg i s :
  wait_cond cfg i s = true <->
  numBuffers cfg = numBuffersQueued s /\ in_processed i = 0.
Proof.
  unfold wait_cond. rewrite andb_true_iff, !Z.eqb_eq. reflexivity.
Qed.

Lemma formats_written_app t1 t2 :
  formats_written (t1 ++ t2) = formats_written t1 ++ formats_written t2.
Proof.
  induction t1 as [| ev t1 IH]; [reflexivity |].
  destruct ev; cbn [app formats_written]; rewrite IH; reflexivity.
Qed.

Ltac split_ifs :=
  repeat match goal with |- context [if ?c then _ else _] => destruct c end.

Lemma formats_written_log desc err : formats_written (log_events desc err) = [].
Proof. unfold log_events. split_ifs; reflexivity. Qed.

Lemma formats_written_reclaim i p : formats_written (reclaim_events i p) = [].
Proof.
  unfold reclaim_events. destruct (in_processed i =? 0); [reflexivity |].
  rewrite formats_written_app, formats_written_log. reflexivity.
Qed.

Lemma formats_written_front cfg i (e : Env ST) :
  formats_written (front_events cfg i e) = [].
Proof.
  unfold front_events, stretch_events, rate_events, tempo_events.
  cbn [formats_written]. rewrite !formats_written_app, formats_written_reclaim.
  cbn [app formats_written]. split_ifs; reflexivity.
Qed.

Lemma format_of_reclaimed i s : format_of (reclaimed i s) = format_of s.
Proof. unfold reclaimed, format_of. destruct (in_processed i =? 0); reflexivity. Qed.

Lemma formats_written_back cfg i s (e : Env ST) :
  formats_written (back_events cfg i s e) = [format_of s].
Proof.
  unfold back_events, encode_events, queue_events, play_events, write_event.
  cbv zeta. rewrite format_of_reclaimed.
  assert (Hs : surround_capable (reclaimed i s) = surround_capable s)
    by (unfold reclaimed; destruct (in_processed i =? 0); reflexivity).
  assert (Hf : float32_capable (reclaimed i s) = float32_capable s)
    by (unfold reclaimed; destruct (in_processed i =? 0); reflexivity).
  rewrite Hs, Hf.
  destruct (surround_capable s), (float32_capable s);
    rewrite !formats_written_app; cbn [formats_written app];
    rewrite ?formats_written_app, ?formats_written_log; cbn [formats_written app];
    split_ifs; cbn [formats_written app];
    rewrite ?formats_written_app, ?formats_written_log; reflexivity.
Qed.

Lemma no_queue_front cfg i (e : Env ST) b : ~ In (EvQueueBuffers b) (front_events cfg i e).
Proof. intros Hin. open_events Hin. split_in; discriminate. Qed.

Lemma no_tempo_outside cfg i s (e : Env ST) ev :
  (ev = EvClear \/ exists r, ev = EvSetTempo r) ->
  tempo_events (final_rate i) = [] ->
  ~ In ev (front_events cfg i e ++ back_events cfg i s e)
  /\ ~ In ev (front_events cfg i e).
Proof.
  intros Hev Ht.
  assert (Hf : ~ In ev (front_events cfg i e)).
  { intros Hin. unfold front_events, stretch_events in Hin. rewrite Ht in Hin.
    open_events Hin. split_in; destruct Hev as [-> | [r ->]]; discriminate. }
  split; [| exact Hf].
  intros Hin. apply in_app_or in Hin. destruct Hin as [Hin | Hin]; [exact (Hf Hin) |].
  open_events Hin. split_in; destruct Hev as [-> | [r ->]]; discriminate.
Qed.

Lemma speed_read_is_final cfg i s (e : Env ST) m :
  In (EvGetCurrentSpeed m) (run_events (cycle cfg i s) e) ->
  F64.gt m F64.ten = true ->
  wait_cond cfg i s = false /\ final_rate i = m.
Proof.
  unfold run_events. intros Hin Hm.
  assert (Hfront : In (EvGetCurrentSpeed m) (front_events cfg i e) -> final_rate i = m).
  { clear Hin. intros Hin. unfold final_rate. open_events Hin.
    split_in; try discriminate; injection Hin as Hin.
    - rewrite Hin. rewrite (F64_gt_ten_not_le_zero m Hm). reflexivity.
    - exact Hin. }
  destruct (cycle_cases cfg i s e) as [[Hw Hc] | [[Hw [_ Hc]] | [Hw [_ Hc]]]];
    rewrite Hc in Hin; cbn [snd] in Hin.
  - split_in; discriminate.
  - split; [exact Hw | exact (Hfront Hin)].
  - split; [exact Hw |]. apply in_app_or in Hin. destruct Hin as [Hin | Hin].
    + exact (Hfront Hin).
    + open_events Hin. split_in; discriminate.
Qed.

Lemma wrap32_small z : 0 <= z < 2 ^ 32 -> wrap32 z = z.
Proof. intros Hz. unfold wrap32. apply Z.mod_small. exact Hz. Qed.

Lemma flags_reclaimed i s :
  surround_capable (reclaimed i s) = surround_capable s
  /\ float32_capable (reclaimed i s) = float32_capable s.
Proof. unfold reclaimed. destruct (in_processed i =? 0); split; reflexivity. Qed.

Lemma flags_encoded i s p :
  (surround_capable s = false -> surround_capable (encoded i s p) = false)
  /\ (float32_capable s = false -> float32_capable (encoded i s p) = false).
Proof.
  unfold encoded.
  destruct (surround_capable s) eqn:Hs, (float32_capable s) eqn:Hf;
    try destruct (latch p (in_buffer_err i) =? AL_INVALID_ENUM);
    cbn [surround_capable float32_capable]; split; congruence.
Qed.

(** A flag that is off stays off over one cycle. *)
Lemma cycle_flags cfg i s (e : Env ST) :
  (surround_capable s = false ->
   surround_capable (snd (run_value (cycle cfg i s) e)) = false)
  /\ (float32_capable s = false ->
      float32_capable (snd (run_value (cycle cfg i s) e)) = false).
Proof.
  unfold run_value.
  destruct (flags_reclaimed i s) as [Hrs Hrf].
  destruct (cycle_cases cfg i s e) as [[_ Hc] | [[_ [_ Hc]] | [_ [_ Hc]]]];
    rewrite Hc; cbn [fst snd].
  - split; trivial.
  - rewrite Hrs, Hrf. split; trivial.
  - unfold queued. cbn [surround_capable float32_capable].
    destruct (flags_encoded i (reclaimed i s) (pending_at_write i e))
      as [He1 He2].
    rewrite Hrs in He1. rewrite Hrf in He2. split; assumption.
Qed.



Lemma write_event_reclaimed cfg i s buf n :
  write_event cfg (reclaimed i s) buf n = write_event cfg s buf n.
Proof. unfold reclaimed. destruct (in_processed i =? 0); reflexivity. Qed.

Lemma latch_clean raised : latch AL_NO_ERROR raised = raised.
Proof. reflexivity. Qed.

(** A flag that is off stays off over any number of iterations. *)
Lemma flags_stay_off cfg ins s (e : Env ST) :
  (surround_capable s = false ->
   surround_capable (locals_of (run_value (SoundLoop_while cfg ins s) e)) = false)
  /\ (float32_capable s = false ->
      float32_capable (locals_of (run_value (SoundLoop_while cfg ins s) e)) = false).
Proof.
  revert s e. induction ins as [| i ins IH]; intros s e.
  - split; trivial.
  - unfold run_value. destruct (in_run i) eqn:Hr.
    + rewrite (SoundLoop_while_step cfg i ins s e Hr). cbn [fst].
      destruct (cycle_flags cfg i s e) as [Hs Hf].
      destruct (IH (snd (run_value (cycle cfg i s) e)) (run_env (cycle cfg i s) e))
        as [IHs IHf].
      split; intros Hoff; [apply IHs, Hs, Hoff | apply IHf, Hf, Hoff].
    + rewrite (SoundLoop_while_exit cfg i ins s e Hr). split; trivial.
Qed.


(** ** The claims *)

(** C1, as the code has it: when no error is pending at the write and the
    buffer-data write of a checked format (float32 stereo, or either
    surround format) is rejected with [AL_INVALID_ENUM], the flag of the
    path is cleared
    (surround in the surround path, float32 in the stereo path) and the
    other flag is kept; the cycle writes once and does not write the samples
    again, and the format chosen from then on is one step lower, which is
    what the next cycle that encodes writes; the loop goes on with the
    remaining iterations from the downgraded state. *)
Theorem C1_rejected_write_downgrades cfg i i2 s (e : Env ST) :
  pending_at_write i e = AL_NO_ERROR ->
  in_buffer_err i = AL_INVALID_ENUM ->
  format_of s <> AL_FORMAT_STEREO16 ->
  fst (run_value (cycle cfg i s) e) = Queued ->
  let s' := snd (run_value (cycle cfg i s) e) in
  let e' := run_env (cycle cfg i s) e in
  (if surround_capable s
   then surround_capable s' = false /\ float32_capable s' = float32_capable s
   else float32_capable s' = false /\ surround_capable s' = false)
  /\ formats_written (run_events (cycle cfg i s) e) = [format_of s]
  /\ format_of s' = lowered (format_of s)
  /\ (fst (run_value (cycle cfg i2 s') e') = Queued ->
      formats_written (run_events (cycle cfg i2 s') e') = [lowered (format_of s)])
  /\ (forall rest, in_run i = true ->
      SoundLoop_while cfg (i :: rest) s e =
      (fst (SoundLoop_while cfg rest s' e'),
       EvRunFlag true :: run_events (cycle cfg i s) e
       ++ snd (SoundLoop_while cfg rest s' e'))).
Proof.
  intros He Hb Hfmt Hq s' e'.
  assert (Hflags :
    (if surround_capable s
     then surround_capable s' = false /\ float32_capable s' = float32_capable s
     else float32_capable s' = false /\ surround_capable s' = false)).
  { subst s'. unfold run_value in *.
    destruct (flags_reclaimed i s) as [Hrs Hrf].
    destruct (cycle_cases cfg i s e) as [[_ Hc] | [[_ [_ Hc]] | [_ [_ Hc]]]];
      rewrite Hc in *; cbn [fst snd] in *; try discriminate.
    unfold queued, encoded. cbn [surround_capable float32_capable].
    rewrite He, latch_clean, Hb, Hrs, Hrf.
    unfold format_of in Hfmt.
    destruct (surround_capable s) eqn:Hs, (float32_capable s) eqn:Hf;
      cbn; rewrite ?Hrs, ?Hrf; split; congruence. }
  assert (Hone : forall j s0 (e0 : Env ST),
            fst (run_value (cycle cfg j s0) e0) = Queued ->
            formats_written (run_events (cycle cfg j s0) e0) = [format_of s0]).
  { intros j s0 e0. unfold run_value, run_events.
    destruct (cycle_cases cfg j s0 e0) as [[_ Hc] | [[_ [_ Hc]] | [_ [_ Hc]]]];
      rewrite Hc; cbn [fst snd]; try discriminate.
    intros _. rewrite formats_written_app, formats_written_front, formats_written_back.
    reflexivity. }
  assert (Hlow : format_of s' = lowered (format_of s)).
  { unfold format_of in *.
    destruct (surround_capable s), (float32_capable s);
      destruct Hflags as [H1 H2]; rewrite H1, H2; reflexivity. }
  split; [exact Hflags | split; [exact (Hone i s e Hq) | split; [exact Hlow |]]].
  split.
  - intros Hq2. rewrite <- Hlow. exact (Hone i2 s' e' Hq2).
  - intros rest Hr. apply SoundLoop_while_step. exact Hr.
Qed.

(** C2, as the code has it: when the multiplier of the cycle is at most 0.10
    (the second reading when the first is not positive), the cycle calls
    neither [setTempo] nor [clear]; the engine keeps the tempo it had, and
    what the synchronizer hands on is what the engine returns from
    [receiveSamples] after [putSamples], under that tempo. *)
Theorem C2_low_rate_sets_no_tempo cfg i s (e : Env ST) :
  F64.le (final_rate i) F64.tenth = true ->
  (forall r, ~ In (EvSetTempo r) (run_events (cycle cfg i s) e))
  /\ ~ In EvClear (run_events (cycle cfg i s) e)
  /\ run_value (stretch cfg i) e =
     fst (receiveSamples (OAL_MAX_SAMPLES * numBuffers cfg)
            (putSamples (ingested i) (fst (in_mix i)) (soundTouch e)))
  /\ soundTouch (run_env (stretch cfg i) e) =
     snd (receiveSamples (OAL_MAX_SAMPLES * numBuffers cfg)
            (putSamples (ingested i) (fst (in_mix i)) (soundTouch e))).
Proof.
  intros Hle. pose proof (F64_le_not_gt _ _ Hle) as Hgt.
  assert (Ht : tempo_events (final_rate i) = [])
    by (unfold tempo_events; rewrite Hgt; reflexivity).
  assert (Hnone : forall ev, (ev = EvClear \/ exists r, ev = EvSetTempo r) ->
                             ~ In ev (run_events (cycle cfg i s) e)).
  { intros ev Hev. unfold run_events.
    destruct (no_tempo_outside cfg i s e ev Hev Ht) as [Hfb Hf].
    destruct (cycle_cases cfg i s e) as [[_ Hc] | [[_ [_ Hc]] | [_ [_ Hc]]]];
      rewrite Hc; cbn [snd]; try assumption.
    intros Hin. split_in; destruct Hev as [-> | [r ->]]; discriminate. }
  split; [| split; [| split]].
  - intros r. apply Hnone. right. exists r. reflexivity.
  - apply Hnone. left. reflexivity.
  - unfold run_value. rewrite stretch_run. cbn [fst].
    unfold drain, tempo_engine. rewrite Hgt. reflexivity.
  - unfold run_env. rewrite stretch_run. cbn [fst snd soundTouch].
    unfold drain, tempo_engine. rewrite Hgt. reflexivity.
Qed.

(** C3, as the code has it: past the wait check a cycle skips encoding and
    queuing when the drained sample count is below the minimum of the mode
    (240 with surround, 0 without) and, without surround, when it is zero;
    when the count is above the minimum the cycle writes one buffer in the
    format of the mode and queues it.  A skipping cycle writes and queues
    nothing. *)
Theorem C3_skip_below_minimum cfg i s (e : Env ST) :
  wait_cond cfg i s = false ->
  let n := drained_count cfg i (soundTouch e) in
  let outcome := fst (run_value (cycle cfg i s) e) in
  let t := run_events (cycle cfg i s) e in
  minSamples s = (if surround_capable s then 240 else 0)
  /\ (n < minSamples s -> outcome = Skipped)
  /\ (surround_capable s = false -> n = 0 -> outcome = Skipped)
  /\ (minSamples s < n -> outcome = Queued)
  /\ (outcome = Skipped ->
      formats_written t = [] /\ forall b, ~ In (EvQueueBuffers b) t)
  /\ (outcome = Queued ->
      formats_written t = [format_of s] /\ In (EvQueueBuffers (buffer_of cfg s)) t).
Proof.
  intros Hw n outcome t. subst n outcome t. unfold run_value, run_events.
  split; [reflexivity |].
  destruct (cycle_cases cfg i s e) as [[Hw' _] | [[_ [Hn Hc]] | [_ [Hn Hc]]]];
    [congruence | |]; rewrite Hc; cbn [fst snd].
  - apply Z.leb_le in Hn.
    repeat split; try discriminate; try lia.
    + apply formats_written_front.
    + intros b. apply no_queue_front.
  - apply Z.leb_gt in Hn.
    repeat split; try discriminate; try lia.
    + intros Hs Hz. unfold minSamples in Hn. rewrite Hs in Hn. lia.
    + rewrite formats_written_app, formats_written_front, formats_written_back.
      reflexivity.
    + apply in_or_app. right. unfold back_events, queue_events.
      apply in_or_app. right. rewrite buffer_of_encoded. left. reflexivity.
Qed.

(** C4: a tempo multiplier above 10 read in a cycle is the multiplier of
    that cycle; [setTempo] is called with it and [clear] is the very next
    action, and the engine drains from the cleared state. *)
Theorem C4_clear_right_after_tempo_above_ten cfg i s (e : Env ST) m :
  In (EvGetCurrentSpeed m) (run_events (cycle cfg i s) e) ->
  F64.gt m F64.ten = true ->
  (exists pre post,
     run_events (cycle cfg i s) e = pre ++ [EvSetTempo m; EvClear] ++ post
     /\ ~ In EvClear pre /\ (forall r, ~ In (EvSetTempo r) pre))
  /\ soundTouch (run_env (cycle cfg i s) e) =
     snd (receiveSamples (OAL_MAX_SAMPLES * numBuffers cfg)
            (clear (setTempo m (putSamples (ingested i) (fst (in_mix i))
                                           (soundTouch e))))).
Proof.
  intros Hin Hm.
  destruct (speed_read_is_final cfg i s e m Hin Hm) as [Hw Hrate].
  assert (Hdrain : drain cfg i (soundTouch e) =
            receiveSamples (OAL_MAX_SAMPLES * numBuffers cfg)
              (clear (setTempo m (putSamples (ingested i) (fst (in_mix i))
                                             (soundTouch e))))).
  { unfold drain, tempo_engine. rewrite Hrate, (F64_gt_ten_gt_tenth m Hm), Hm.
    reflexivity. }
  assert (Hfront : exists pre post,
            front_events cfg i e = pre ++ [EvSetTempo m; EvClear] ++ post
            /\ ~ In EvClear pre /\ (forall r, ~ In (EvSetTempo r) pre)).
  { exists (EvGetBuffersProcessed (in_processed i)
            :: reclaim_events i (pending_at_entry i e)
            ++ [EvMix (requested i) (fst (in_mix i));
                EvPutSamples (ingested i) (fst (in_mix i))] ++ rate_events i).
    exists [EvReceiveSamples (OAL_MAX_SAMPLES * numBuffers cfg)
              (drained_count cfg i (soundTouch e))].
    split; [| split].
    - unfold front_events, stretch_events, tempo_events.
      rewrite Hrate, (F64_gt_ten_gt_tenth m Hm), Hm.
      cbn [app]. rewrite <- !app_assoc. reflexivity.
    - intros Hc. open_events Hc. split_in; discriminate.
    - intros r Hc. open_events Hc. split_in; discriminate. }
  unfold run_events, run_env.
  destruct (cycle_cases cfg i s e) as [[Hw' _] | [[_ [_ Hc]] | [_ [_ Hc]]]];
    [congruence | |]; rewrite Hc; cbn [fst snd soundTouch]; rewrite Hdrain;
    (split; [| reflexivity]).
  - exact Hfront.
  - destruct Hfront as (pre & post & Heq & Hpre).
    exists pre, (post ++ back_events cfg i s e). split; [| exact Hpre].
    rewrite Heq. rewrite <- !app_assoc. reflexivity.
Qed.

(** C5: in a run of [SoundLoop], a capability flag that is false after any
    number of iterations (none, right after the probe of the prologue,
    included) is false after every further iteration of that run. *)
Theorem C5_downgrade_is_monotonic init pre post (e : Env ST) :
  let before := locals_of (run_value (SoundLoop init pre) e) in
  let after := locals_of (run_value (SoundLoop init (pre ++ post)) e) in
  (surround_capable before = false -> surround_capable after = false)
  /\ (float32_capable before = false -> float32_capable after = false).
Proof.
  cbv zeta. rewrite !SoundLoop_run, SoundLoop_while_app.
  set (cfg := fst (run_value (prologue init) e)).
  set (s0 := snd (run_value (prologue init) e)).
  set (e0 := run_env (prologue init) e).
  destruct (run_value (SoundLoop_while cfg pre s0) e0) as [s1 | s1]; cbn [locals_of].
  - split; trivial.
  - apply flags_stay_off.
Qed.


(** C7: in a cycle that queues a buffer slot, whatever the queue call
    reports, the source state is read after the queue call and
    [alSourcePlay] follows if and only if that state is not [AL_PLAYING];
    nothing resumes playback before the queue call. *)
Theorem C7_resume_iff_not_playing cfg i s (e : Env ST) :
  fst (run_value (cycle cfg i s) e) = Queued ->
  exists pre post,
    run_events (cycle cfg i s) e = pre ++ EvQueueBuffers (buffer_of cfg s) :: post
    /\ ~ In EvSourcePlay pre
    /\ In (EvGetSourceState (in_state i)) post
    /\ (In EvSourcePlay post <-> in_state i <> AL_PLAYING).
Proof.
  unfold run_value, run_events. intros Hq.
  destruct (cycle_cases cfg i s e) as [[_ Hc] | [[_ [_ Hc]] | [_ [_ Hc]]]];
    rewrite Hc in *; cbn [fst snd] in *; try discriminate.
  set (s1 := reclaimed i s). set (p1 := pending_at_write i e).
  set (out := fst (drain cfg i (soundTouch e))).
  exists (front_events cfg i e ++ encode_events cfg i s1 (snd out) (fst out) p1).
  exists (EvGetError (latch (pending_after_encode i s1 p1) (in_queue_err i))
          :: log_events "queuing buffers"
               (latch (pending_after_encode i s1 p1) (in_queue_err i))
          ++ [EvGetSourceState (in_state i)] ++ play_events i).
  split; [| split; [| split]].
  - unfold back_events, queue_events. fold s1 p1 out.
    unfold s1, p1. rewrite buffer_of_encoded.
    rewrite <- app_assoc. reflexivity.
  - intros Hin. open_events Hin. split_in; discriminate.
  - right. apply in_or_app. right. left. reflexivity.
  - unfold play_events. split.
    + intros Hin Hst. apply Z.eqb_eq in Hst. rewrite Hst in Hin.
      unfold log_events in Hin. split_in; discriminate.
    + intros Hst. apply Z.eqb_neq in Hst. rewrite Hst.
      right. apply in_or_app. right. right. left. reflexivity.
Qed.

(** C8: the loop waits on [soundSyncEvent] exactly when all [numBuffers]
    buffers are queued and the device reports no processed buffer; the wait
    is the last action of its iteration, which leaves the locals and the
    engine as they were, so that the action after the wake is the read of
    the run flag at the loop head; when that read is [false] nothing
    follows and the loop has exited; and whenever one of the reads of the
    run flag is [false] the loop has exited. *)
Theorem C8_wait_then_recheck_run_flag cfg i s (e : Env ST) :
  (In EvWait (run_events (cycle cfg i s) e) <->
   numBuffers cfg = numBuffersQueued s /\ in_processed i = 0)
  /\ (In EvWait (run_events (cycle cfg i s) e) ->
      cycle cfg i s e =
      ((Waited, s), mkEnv (pending_at_entry i e) (soundTouch e),
       [EvGetBuffersProcessed (in_processed i); EvWait])
      /\ forall next rest, in_run i = true ->
           exists tail,
             run_events (SoundLoop_while cfg (i :: next :: rest) s) e =
             [EvRunFlag true; EvGetBuffersProcessed (in_processed i); EvWait;
              EvRunFlag (in_run next)] ++ tail
             /\ (in_run next = false ->
                 tail = []
                 /\ run_value (SoundLoop_while cfg (i :: next :: rest) s) e = Exited s))
  /\ (forall ins s0 (e0 : Env ST),
        existsb (fun x => negb (in_run x)) ins = true ->
        exists s', run_value (SoundLoop_while cfg ins s0) e0 = Exited s').
Proof.
  assert (Hiff : In EvWait (run_events (cycle cfg i s) e) <->
                 numBuffers cfg = numBuffersQueued s /\ in_processed i = 0).
  { rewrite <- wait_cond_spec. unfold run_events.
    destruct (cycle_cases cfg i s e) as [[Hw Hc] | [[Hw [_ Hc]] | [Hw [_ Hc]]]];
      rewrite Hc; cbn [snd]; rewrite Hw; split; try discriminate.
    - reflexivity.
    - intros _. right. left. reflexivity.
    - intros Hin. elim (no_wait_front cfg i e Hin).
    - intros Hin. apply in_app_or in Hin. destruct Hin as [Hin | Hin].
      + elim (no_wait_front cfg i e Hin).
      + elim (no_wait_back cfg i s e Hin). }
  split; [exact Hiff | split].
  - intros Hin. apply Hiff in Hin. apply wait_cond_spec in Hin.
    pose proof (cycle_waited cfg i s e Hin) as Hc.
    split; [exact Hc |].
    intros next rest Hr. unfold run_events, run_value.
    rewrite (SoundLoop_while_step cfg i (next :: rest) s e Hr).
    unfold run_value, run_env, run_events. rewrite Hc. cbn [fst snd app].
    destruct (in_run next) eqn:Hn.
    + rewrite (SoundLoop_while_step cfg next rest s _ Hn). cbn [fst snd].
      eexists. split; [reflexivity | discriminate].
    + rewrite (SoundLoop_while_exit cfg next rest s _ Hn). cbn [fst snd].
      exists []. split; [reflexivity |]. intros _. split; reflexivity.
  - clear. intros ins. induction ins as [| j ins IH]; intros s0 e0 Hex.
    + discriminate.
    + cbn [existsb] in Hex. destruct (in_run j) eqn:Hj.
      * cbn [negb orb] in Hex. unfold run_value.
        rewrite (SoundLoop_while_step cfg j ins s0 e0 Hj). cbn [fst].
        apply (IH _ _ Hex).
      * exists s0. unfold run_value.
        rewrite (SoundLoop_while_exit cfg j ins s0 e0 Hj). reflexivity.
Qed.


(** C10, as the code has it: in the 16-bit stereo path the queue call is the
    very next action after the buffer-data write, with no [alGetError] in
    between, and the slot is always queued; the flags stay as they are and
    no warning is logged; an error the write raises stays pending until the
    check after the queue call fetches it, and with no other error pending
    at the write it is logged there under "queuing buffers". *)
Theorem C10_stereo16_write_unchecked cfg i s (e : Env ST) :
  surround_capable s = false ->
  float32_capable s = false ->
  fst (run_value (cycle cfg i s) e) = Queued ->
  let s' := snd (run_value (cycle cfg i s) e) in
  let t := run_events (cycle cfg i s) e in
  let p := latch (latch (pending_at_write i e) (in_buffer_err i))
                 (in_queue_err i) in
  (exists pre post data size,
     t = pre ++ [EvBufferData (buffer_of cfg s) AL_FORMAT_STEREO16 data size
                   (ulFrequency cfg);
                 EvQueueBuffers (buffer_of cfg s);
                 EvGetError p]
             ++ log_events "queuing buffers" p ++ post
     /\ formats_written pre = [])
  /\ surround_capable s' = false /\ float32_capable s' = false
  /\ (forall msg, ~ In (EvWarnLog msg) t)
  /\ (pending_at_write i e = AL_NO_ERROR -> in_buffer_err i <> AL_NO_ERROR ->
      In (EvErrorLog "queuing buffers" (in_buffer_err i) (error_type (in_buffer_err i))) t).
Proof.
  intros Hs Hf Hq s' t p. subst s' t. unfold run_value, run_events in *.
  destruct (flags_reclaimed i s) as [Hrs Hrf].
  destruct (cycle_cases cfg i s e) as [[_ Hc] | [[_ [_ Hc]] | [_ [_ Hc]]]];
    rewrite Hc in *; cbn [fst snd] in *; try discriminate.
  assert (Hback : back_events cfg i s e =
            [write_event cfg s (snd (fst (drain cfg i (soundTouch e))))
               (fst (fst (drain cfg i (soundTouch e))));
             EvQueueBuffers (buffer_of cfg s); EvGetError p]
            ++ log_events "queuing buffers" p
            ++ [EvGetSourceState (in_state i)] ++ play_events i).
  { unfold back_events, encode_events, queue_events, pending_after_encode, encoded.
    cbv zeta. rewrite Hrs, Hrf, Hs, Hf. cbn [orb app].
    rewrite write_event_reclaimed.
    assert (Hb : buffer_of cfg (reclaimed i s) = buffer_of cfg s)
      by (unfold reclaimed, buffer_of; destruct (in_processed i =? 0); reflexivity).
    rewrite Hb. reflexivity. }
  split; [| split; [| split; [| split]]].
  - exists (front_events cfg i e).
    exists ([EvGetSourceState (in_state i)] ++ play_events i).
    exists (payload_of s (snd (fst (drain cfg i (soundTouch e))))
              (fst (fst (drain cfg i (soundTouch e))))).
    exists (size_of s (fst (fst (drain cfg i (soundTouch e))))).
    split; [| apply formats_written_front].
    rewrite Hback. unfold write_event, format_of. rewrite Hs, Hf. reflexivity.
  - unfold queued. cbn [surround_capable].
    apply (proj1 (flags_encoded _ _ _)). congruence.
  - unfold queued. cbn [float32_capable].
    apply (proj2 (flags_encoded _ _ _)). congruence.
  - intros msg Hin. rewrite Hback in Hin. apply in_app_or in Hin.
    destruct Hin as [Hin | Hin]; unfold write_event in Hin; open_events Hin;
      split_in; discriminate.
  - intros He Hb. apply in_or_app. right. rewrite Hback.
    subst p. rewrite He, latch_clean.
    assert (Hl : latch (in_buffer_err i) (in_queue_err i) = in_buffer_err i).
    { unfold latch. apply Z.eqb_neq in Hb. rewrite Hb. reflexivity. }
    rewrite Hl. unfold log_events. apply Z.eqb_neq in Hb. rewrite Hb.
    cbn [app]. right. right. right. left. reflexivity.
Qed.

(** ** Further properties: the control surface *)

(** X1: [Start] on a stream whose thread is not running returns [true]
    exactly when a device was found, opened and given a context; it spawns
    the thread once in that case and not at all otherwise, and it raises one
    alert when it returns [false] and none when it returns [true]. *)
Theorem Start_spawns_iff_true i t (o : Stream ST) :
  thread_joinable o = false ->
  let ok := negb (start_devices i =? 0) && start_device_ok i && start_context_ok i in
  fst (fst (Start i t o)) = Returned ok
  /\ calls_of is_thread_start (snd (Start i t o)) = (if ok then 1 else 0)%nat
  /\ thread_joinable (snd (fst (Start i t o))) = ok
  /\ calls_of is_panic (snd (Start i t o)) = (if ok then 0 else 1)%nat.
Proof.
  intros Hj ok. subst ok. unfold Start, thread_ran. rewrite Hj.
  destruct (start_devices i =? 0), (start_device_ok i), (start_context_ok i);
    cbn; repeat split; reflexivity.
Qed.

(** X2: [Start] opens a device only when one was found, and closes the
    device again exactly when it opened but gave no context; a device that
    did not open is not closed, and one that got its context stays open. *)
Theorem Start_closes_device_without_context i t (o : Stream ST) :
  calls_of is_open_device (snd (Start i t o))
  = (if start_devices i =? 0 then 0%nat else 1%nat)
  /\ calls_of is_close_device (snd (Start i t o))
     = (if negb (start_devices i =? 0) && start_device_ok i
           && negb (start_context_ok i) then 1%nat else 0%nat).
Proof.
  unfold Start.
  destruct (start_devices i =? 0), (start_device_ok i), (start_context_ok i),
    (thread_joinable o); cbn; split; reflexivity.
Qed.

(** X3: whatever [Start] finds, it sets the run flag first; when it returns,
    also with [false], the run flag is set, the decoder reset and the engine
    clear are its last two actions, and mute and volume are as they were.
    When it returns [false] with no thread running, the engine is the old
    one cleared, and source, buffer count and wake signal are as they were;
    when it returns [true] these four are in the hands of the thread it has
    started. *)
Theorem Start_always_sets_flag_and_clears i t (o : Stream ST) :
  hd_error (snd (Start i t o)) = Some CallFlagSet
  /\ m_run_thread (snd (fst (Start i t o))) = true
  /\ (forall b, fst (fst (Start i t o)) = Returned b ->
       (exists calls, snd (Start i t o) = calls ++ [CallDPL2Reset; CallSoundTouchClear])
       /\ m_muted (snd (fst (Start i t o))) = m_muted o
       /\ fVolume (snd (fst (Start i t o))) = fVolume o)
  /\ (thread_joinable o = false -> fst (fst (Start i t o)) = Returned false ->
      stream_soundTouch (snd (fst (Start i t o))) = clear (stream_soundTouch o)
      /\ uiSource (snd (fst (Start i t o))) = uiSource o
      /\ stream_numBuffers (snd (fst (Start i t o))) = stream_numBuffers o
      /\ soundSyncEvent (snd (fst (Start i t o))) = soundSyncEvent o
      /\ thread_joinable (snd (fst (Start i t o))) = false)
  /\ (fst (fst (Start i t o)) = Returned true ->
      snd (fst (Start i t o))
      = mkStream true (thread_soundSyncEvent t) (m_muted o) (fVolume o)
                 (thread_uiSource t) (thread_numBuffers t) true (thread_soundTouch t)).
Proof.
  unfold Start, thread_ran.
  destruct (start_devices i =? 0), (start_device_ok i), (start_context_ok i),
    (thread_joinable o); cbn [negb fst snd hd_error thread_joinable m_run_thread
                               m_muted fVolume];
    (split; [reflexivity | split; [reflexivity | split; [| split]]]);
    try (intros Hj Hb; first [discriminate Hj | discriminate Hb
                             | repeat split; reflexivity]);
    try (intros Hb; first [discriminate Hb | reflexivity]);
    intros b Hb; try discriminate Hb;
    (split; [| split; reflexivity]);
    eexists;
    match goal with
    | |- ?x :: ?y :: ?l ++ ?r = _ =>
        change (x :: y :: l ++ r) with ((x :: y :: l) ++ r); reflexivity
    end.
Qed.



(** X6: in a [Stop] that returns, the run flag is cleared before the wake
    signal is set, the signal is set before the join, and the join comes
    before every call that stops the source or releases the source, the
    buffers, the context and the device; all [numBuffers] buffers are
    deleted. *)
Theorem Stop_joins_before_teardown j (o : Stream ST) :
  thread_joinable o = true ->
  exists teardown,
    snd (Stop j o) = [CallFlagClear; CallEventSet; CallSoundTouchClear; CallThreadJoin]
                   ++ teardown
    /\ position (fun c => match c with CallSourceStop _ => true | _ => false end)
         teardown = Some 0%nat
    /\ In (CallDeleteSources (uiSource o)) teardown
    /\ In (CallDeleteBuffers (stream_numBuffers o)) teardown
    /\ (exists pre, teardown = pre ++ [CallMakeContextCurrent false; CallDestroyContext;
                                       CallCloseDevice])
    /\ ~ In CallThreadJoin teardown
    /\ ~ In CallFlagClear teardown.
Proof.
  intros Hj. unfold Stop. rewrite Hj. cbn [snd].
  eexists. split; [reflexivity |].
  split; [reflexivity |].
  split; [cbn; tauto |]. split; [cbn; tauto |].
  split.
  - eexists [_; _; _; _; _; _]. reflexivity.
  - split; intros Hin; cbn in Hin;
      repeat (destruct Hin as [Hin | Hin]; [discriminate Hin |]); exact Hin.
Qed.

(** X7: [SetVolume] stores the gain [volume / 100] and sends it to the
    source exactly when there is a source ([uiSource] is not 0); after a
    [Stop] that returned there is none, so the volume is stored and no call
    is made. *)
Theorem SetVolume_calls_source_iff_present volume j (o : Stream ST) :
  fVolume (fst (SetVolume volume o)) = volume_gain volume
  /\ snd (SetVolume volume o)
     = (if uiSource o =? 0 then [] else [CallSourceGain (uiSource o) (volume_gain volume)])
  /\ (thread_joinable o = true ->
      snd (SetVolume volume (snd (fst (Stop j o)))) = []
      /\ fVolume (fst (SetVolume volume (snd (fst (Stop j o))))) = volume_gain volume).
Proof.
  split; [reflexivity | split].
  - unfold SetVolume. cbn [snd]. destruct (uiSource o =? 0); reflexivity.
  - intros Hj. unfold Stop. rewrite Hj. split; reflexivity.
Qed.

(** X8: [Clear] records the mute state it is given; muting clears the engine
    and stops the source, unmuting leaves the engine as it is and plays the
    source.  [SetVolume], [Update] and [Clear] leave the run flag and the
    thread as they are. *)
Theorem Clear_stops_or_plays mute volume (o : Stream ST) :
  m_muted (fst (Clear mute o)) = mute
  /\ stream_soundTouch (fst (Clear mute o))
     = (if mute then clear (stream_soundTouch o) else stream_soundTouch o)
  /\ snd (Clear mute o)
     = (if mute then [CallSoundTouchClear; CallSourceStop (uiSource o)]
        else [CallSourcePlay (uiSource o)])
  /\ (forall o', o' = fst (Clear mute o) \/ o' = fst (Update o)
                 \/ o' = fst (SetVolume volume o) ->
        m_run_thread o' = m_run_thread o /\ thread_joinable o' = thread_joinable o).
Proof.
  unfold Clear. destruct mute; cbn [fst snd];
    (split; [reflexivity | split; [reflexivity | split; [reflexivity |]]]);
    intros o' [-> | [-> | ->]]; split; reflexivity.
Qed.

(** ** Further properties: errors, prologue and loop *)

Lemma errors_logged_app t1 t2 :
  errors_logged (t1 ++ t2) = errors_logged t1 ++ errors_logged t2.
Proof.
  induction t1 as [| ev t1 IH]; [reflexivity |].
  destruct ev; cbn [app errors_logged]; rewrite IH; reflexivity.
Qed.

Lemma errors_logged_log desc err :
  errors_logged (log_events desc err)
  = if err =? AL_NO_ERROR then [] else [(desc, err)].
Proof. unfold log_events. destruct (err =? AL_NO_ERROR); reflexivity. Qed.

(** X9: [CheckALError] returns the error the context has recorded and
    clears it; it writes to the error log exactly when that error is not
    [AL_NO_ERROR], under the description it was given; a check right after
    it returns [AL_NO_ERROR] and logs nothing; the engine is not touched. *)
Theorem CheckALError_fetches_and_clears desc desc2 (e : Env ST) :
  run_value (CheckALError desc) e = al_error e
  /\ run_env (CheckALError desc) e = mkEnv AL_NO_ERROR (soundTouch e)
  /\ errors_logged (run_events (CheckALError desc) e)
     = (if al_error e =? AL_NO_ERROR then [] else [(desc, al_error e)])
  /\ run_value (CheckALError desc2) (run_env (CheckALError desc) e) = AL_NO_ERROR
  /\ errors_logged (run_events (CheckALError desc2) (run_env (CheckALError desc) e)) = [].
Proof.
  unfold run_value, run_env, run_events. rewrite !CheckALError_run. cbn [fst snd].
  rewrite ?CheckALError_run. cbn [fst snd al_error errors_logged].
  rewrite !errors_logged_log. repeat split; reflexivity.
Qed.

Lemma strstr_spec haystack needle :
  needle <> EmptyString ->
  strstr haystack needle = false <->
  forall m, substring m (String.length needle) haystack <> needle.
Proof.
  intros Hne. unfold strstr.
  destruct (String.index 0 needle haystack) as [m |] eqn:Hi; split.
  - discriminate.
  - intros Hall. elim (Hall m). apply (index_correct1 0 m). exact Hi.
  - intros _ m. apply (index_correct3 0 m needle haystack Hi Hne). apply Nat.le_0_l.
  - reflexivity.
Qed.

(** X10: the loop starts with float32 on exactly when the build is not for
    Apple and the renderer string does not contain "X-Fi" at any position,
    and with surround on exactly when the configuration asks for the DPL2
    decoder and the build is not for Apple. *)
Theorem probe_capabilities_spec init :
  (snd (probe_capabilities init) = true <->
   init_apple init = false
   /\ forall m, substring m 4 (init_renderer init) <> "X-Fi"%string)
  /\ (fst (probe_capabilities init) = true <->
      init_bDPL2Decoder init = true /\ init_apple init = false).
Proof.
  assert (Hne : "X-Fi"%string <> EmptyString) by discriminate.
  pose proof (strstr_spec (init_renderer init) "X-Fi" Hne) as Hx.
  change (String.length "X-Fi") with 4%nat in Hx.
  unfold probe_capabilities. cbn [fst snd].
  destruct (strstr (init_renderer init) "X-Fi") eqn:Hs, (init_apple init),
    (init_bDPL2Decoder init); cbn [negb];
    (split; split; try (intros [? ?]); try discriminate; try (intros _; split);
     try reflexivity; try discriminate);
    try (apply Hx; reflexivity).
  all: try (match goal with Hall : forall m, _ <> _ |- _ => apply Hx in Hall end;
            try discriminate).
Qed.

Lemma prologue_full init (e : Env ST) :
  prologue init e =
  ((mkSession (init_iLatency init + 2) (init_sample_rate init) (init_buffers init),
    mkLocals (fst (probe_capabilities init)) (snd (probe_capabilities init)) 0 0 0),
   mkEnv (init_gain_err init)
     (setSetting SETTING_OVERLAP_MS 12
        (setSetting SETTING_SEEKWINDOW_MS 28
           (setSetting SETTING_SEQUENCE_MS 1
              (setSetting SETTING_USE_AA_FILTER 0
                 (setSetting SETTING_USE_QUICKSEEK 0
                    (setTempo F64.one
                       (setSampleRate (init_sample_rate init)
                          (setChannels 2 (soundTouch e))))))))),
   [EvGetError (al_error e); EvGenBuffers (init_iLatency init + 2);
    EvGetError (init_gen_buffers_err init)]
   ++ log_events "generating buffers" (init_gen_buffers_err init)
   ++ [EvGenSources; EvGetError (init_gen_sources_err init)]
   ++ log_events "generating sources" (init_gen_sources_err init)
   ++ [EvSourceGain (init_fVolume init); EvSetTempo F64.one]).
Proof.
  unfold prologue. destruct (probe_capabilities init) as [sc fc].
  repeat run_step. run_done.
Qed.

(** X11: the prologue throws away an error that was pending on entry, logs
    an error of [alGenBuffers] and of [alGenSources] under its own
    description, and does not check [alSourcef]: its error is still pending
    when the loop begins.  The locals start at zero, the session has
    [iLatency] + 2 buffers, and the engine is set to tempo 1.0 once. *)
Theorem prologue_checks_generation_only init (e : Env ST) :
  errors_logged (run_events (prologue init) e)
  = (if init_gen_buffers_err init =? AL_NO_ERROR then []
     else [("generating buffers"%string, init_gen_buffers_err init)])
    ++ (if init_gen_sources_err init =? AL_NO_ERROR then []
        else [("generating sources"%string, init_gen_sources_err init)])
  /\ al_error (run_env (prologue init) e) = init_gain_err init
  /\ numBuffers (fst (run_value (prologue init) e)) = init_iLatency init + 2
  /\ nextBuffer (snd (run_value (prologue init) e)) = 0
  /\ numBuffersQueued (snd (run_value (prologue init) e)) = 0
  /\ filter is_set_tempo (run_events (prologue init) e) = [EvSetTempo F64.one]
  /\ In (EvSourceGain (init_fVolume init)) (run_events (prologue init) e).
Proof.
  unfold run_events, run_env, run_value. rewrite prologue_full. cbn [fst snd].
  split; [| split; [reflexivity | split; [reflexivity | split; [reflexivity |
          split; [reflexivity | split]]]]].
  - rewrite !errors_logged_app, !errors_logged_log. cbn [errors_logged app].
    rewrite app_nil_r. reflexivity.
  - rewrite !filter_app. unfold log_events.
    destruct (init_gen_buffers_err init =? AL_NO_ERROR),
      (init_gen_sources_err init =? AL_NO_ERROR); reflexivity.
  - repeat (apply in_or_app; right). left. reflexivity.
Qed.

(** X12: once the run flag has read false nothing further happens: the
    answers prepared for later iterations make no difference to the result,
    the state or the trace of the loop. *)
Theorem SoundLoop_while_stops_at_false cfg pre x post s (e : Env ST) :
  in_run x = false ->
  SoundLoop_while cfg (pre ++ x :: post) s e = SoundLoop_while cfg (pre ++ [x]) s e.
Proof.
  intros Hx. revert s e. induction pre as [| i pre IH]; intros s e.
  - cbn [app]. rewrite !(SoundLoop_while_exit cfg x _ s e Hx). reflexivity.
  - cbn [app]. destruct (in_run i) eqn:Hi.
    + rewrite !(SoundLoop_while_step cfg i _ s e Hi). rewrite IH. reflexivity.
    + rewrite !(SoundLoop_while_exit cfg i _ s e Hi). reflexivity.
Qed.

Lemma buffers_queued_app t1 t2 :
  buffers_queued (t1 ++ t2) = buffers_queued t1 ++ buffers_queued t2.
Proof.
  induction t1 as [| ev t1 IH]; [reflexivity |].
  destruct ev; cbn [app buffers_queued]; rewrite IH; reflexivity.
Qed.

Lemma frames_requested_app t1 t2 :
  frames_requested (t1 ++ t2) = frames_requested t1 ++ frames_requested t2.
Proof.
  induction t1 as [| ev t1 IH]; [reflexivity |].
  destruct ev; cbn [app frames_requested]; rewrite IH; reflexivity.
Qed.

Lemma occurrences_app p t1 t2 :
  occurrences p (t1 ++ t2) = (occurrences p t1 + occurrences p t2)%nat.
Proof. unfold occurrences. rewrite filter_app, length_app. reflexivity. Qed.

Ltac open_trace :=
  unfold front_events, back_events, stretch_events, reclaim_events, rate_events,
    tempo_events, encode_events, queue_events, play_events, log_events, write_event;
  cbv zeta.

Lemma buffers_queued_front cfg i (e : Env ST) : buffers_queued (front_events cfg i e) = [].
Proof.
  open_trace. split_ifs; cbn [buffers_queued app]; reflexivity.
Qed.

Lemma buffers_queued_back cfg i s (e : Env ST) :
  buffers_queued (back_events cfg i s e) = [buffer_of cfg s].
Proof.
  unfold back_events, queue_events. cbv zeta. rewrite buffer_of_encoded.
  open_trace. split_ifs; cbn [buffers_queued app]; reflexivity.
Qed.

Lemma frames_requested_front cfg i (e : Env ST) :
  frames_requested (front_events cfg i e) = [requested i].
Proof.
  open_trace. split_ifs; cbn [frames_requested app]; reflexivity.
Qed.

Lemma frames_requested_back cfg i s (e : Env ST) :
  frames_requested (back_events cfg i s e) = [].
Proof.
  open_trace. split_ifs; cbn [frames_requested app]; reflexivity.
Qed.

Lemma SoundLoop_events init ins (e : Env ST) :
  run_events (SoundLoop init ins) e =
  run_events (prologue init) e
  ++ run_events (SoundLoop_while (fst (run_value (prologue init) e)) ins
                   (snd (run_value (prologue init) e)))
                (run_env (prologue init) e).
Proof.
  unfold SoundLoop, run_value, run_env, run_events, bind.
  destruct (prologue init e) as [[p e1] t1]. cbn [fst snd].
  destruct (SoundLoop_while (fst p) ins (snd p) e1) as [[r e2] t2]. reflexivity.
Qed.

Lemma nextBuffer_reclaimed i s : nextBuffer (reclaimed i s) = nextBuffer s.
Proof. unfold reclaimed. destruct (in_processed i =? 0); reflexivity. Qed.

Lemma nextBuffer_encoded i s p : nextBuffer (encoded i s p) = nextBuffer s.
Proof. unfold encoded. split_ifs; reflexivity. Qed.

(** The cursor and the buffers queued, from any state of the loop. *)
Lemma round_robin_from cfg ins s (e : Env ST) :
  0 < numBuffers cfg < 2 ^ 32 ->
  0 <= nextBuffer s < numBuffers cfg ->
  nextBuffer (locals_of (run_value (SoundLoop_while cfg ins s) e))
  = (nextBuffer s
     + Z.of_nat (List.length (buffers_queued (run_events (SoundLoop_while cfg ins s) e))))
    mod numBuffers cfg
  /\ buffers_queued (run_events (SoundLoop_while cfg ins s) e)
     = map (fun j => array_get 0 (uiBuffers cfg)
                       (Z.to_nat ((nextBuffer s + Z.of_nat j) mod numBuffers cfg)))
           (seq 0 (List.length
                     (buffers_queued (run_events (SoundLoop_while cfg ins s) e)))).
Proof.
  intros HN. revert s e. induction ins as [| i ins IH]; intros s e Hc.
  - cbn. rewrite Z.add_0_r, Z.mod_small by lia. split; reflexivity.
  - unfold run_value, run_events in *. destruct (in_run i) eqn:Hr.
    2:{ rewrite (SoundLoop_while_exit cfg i ins s e Hr). cbn.
        rewrite Z.add_0_r, Z.mod_small by lia. split; reflexivity. }
    rewrite (SoundLoop_while_step cfg i ins s e Hr). cbn [fst snd locals_of].
    cbn [buffers_queued]. rewrite buffers_queued_app.
    unfold run_value, run_env, run_events.
    destruct (cycle_cases cfg i s e) as [[_ Hcy] | [[_ [_ Hcy]] | [_ [_ Hcy]]]];
      rewrite Hcy; cbn [fst snd].
    + cbn [buffers_queued app]. apply IH. exact Hc.
    + rewrite buffers_queued_front. cbn [app].
      assert (Hc' : 0 <= nextBuffer (reclaimed i s) < numBuffers cfg)
        by (rewrite nextBuffer_reclaimed; exact Hc).
      pose proof (IH (reclaimed i s)
                    (mkEnv (pending_at_write i e) (snd (drain cfg i (soundTouch e))))
                    Hc') as IH'.
      rewrite nextBuffer_reclaimed in IH'. exact IH'.
    + rewrite buffers_queued_app, buffers_queued_front, buffers_queued_back.
      cbn [app List.length seq map].
      set (s' := queued cfg i (encoded i (reclaimed i s) (pending_at_write i e))).
      assert (Hs' : nextBuffer s' = (nextBuffer s + 1) mod numBuffers cfg).
      { unfold s', queued. cbn [nextBuffer].
        rewrite nextBuffer_encoded, nextBuffer_reclaimed.
        rewrite wrap32_small by lia. reflexivity. }
      assert (Hc' : 0 <= nextBuffer s' < numBuffers cfg)
        by (rewrite Hs'; apply Z.mod_pos_bound; lia).
      destruct (IH s' (mkEnv (pending_after_queue i) (snd (drain cfg i (soundTouch e))))
                  Hc') as [IHn IHl].
      split.
      * rewrite IHn, Hs'. rewrite Zplus_mod_idemp_l. f_equal. lia.
      * rewrite IHl at 1. f_equal.
        -- unfold buffer_of. rewrite Z.add_0_r, Z.mod_small by lia. reflexivity.
        -- rewrite <- seq_shift, map_map. apply map_ext. intros j.
           rewrite Hs', Zplus_mod_idemp_l. do 3 f_equal. lia.
Qed.

(** X13: the buffers are used in rotation.  With [numBuffers] = [iLatency]
    + 2 positive, the k-th buffer a run of [SoundLoop] queues (counting from
    0) is [uiBuffers[k mod numBuffers]], and after k queued buffers the
    cursor stands at [k mod numBuffers]; waiting, skipping and rejected
    writes do not disturb the rotation. *)
Theorem SoundLoop_round_robin init ins (e : Env ST) :
  0 < init_iLatency init + 2 < 2 ^ 32 ->
  let N := init_iLatency init + 2 in
  let t := run_events (SoundLoop init ins) e in
  let k := List.length (buffers_queued t) in
  nextBuffer (locals_of (run_value (SoundLoop init ins) e)) = Z.of_nat k mod N
  /\ buffers_queued t
     = map (fun j => array_get 0 (init_buffers init) (Z.to_nat (Z.of_nat j mod N)))
           (seq 0 k).
Proof.
  intros HN N t k. subst N t k.
  rewrite SoundLoop_run, SoundLoop_events, buffers_queued_app.
  assert (Hp : buffers_queued (run_events (prologue init) e) = []).
  { unfold run_events. rewrite prologue_full. cbn [snd].
    rewrite !buffers_queued_app. unfold log_events. split_ifs; reflexivity. }
  rewrite Hp. cbn [app]. rewrite prologue_run. cbn [fst snd].
  set (cfg := mkSession (init_iLatency init + 2) (init_sample_rate init)
                        (init_buffers init)).
  set (s0 := mkLocals (fst (probe_capabilities init)) (snd (probe_capabilities init))
                      0 0 0).
  destruct (round_robin_from cfg ins s0 (run_env (prologue init) e)) as [Hn Hl].
  - exact HN.
  - cbn. lia.
  - split; [exact Hn |]. exact Hl.
Qed.

Lemma requested_bounded i :
  0 <= OAL_MAX_SAMPLES -> 0 <= requested i <= OAL_MAX_SAMPLES.
Proof.
  intros HM. unfold requested. cbv zeta.
  set (n := wrap32 (num_samples_to_render (in_ticks_per_second i) (in_aid_sample_rate i))).
  assert (Hn : 0 <= n) by (apply Z.mod_pos_bound; reflexivity).
  destruct (OAL_MAX_SAMPLES <? n) eqn:Hlt.
  - lia.
  - apply Z.ltb_ge in Hlt. lia.
Qed.

(** X14: whatever the timers say, the loop never asks the mixer for more
    than [OAL_MAX_SAMPLES] frames, nor for a negative number. *)
Theorem SoundLoop_requests_bounded init ins (e : Env ST) :
  0 <= OAL_MAX_SAMPLES ->
  Forall (fun r => 0 <= r <= OAL_MAX_SAMPLES)
         (frames_requested (run_events (SoundLoop init ins) e)).
Proof.
  intros HM. rewrite SoundLoop_events, frames_requested_app.
  apply Forall_app. split.
  - unfold run_events. rewrite prologue_full. cbn [snd].
    rewrite !frames_requested_app. unfold log_events.
    split_ifs; cbn; constructor.
  - generalize (fst (run_value (prologue init) e)) as cfg.
    generalize (snd (run_value (prologue init) e)) as s.
    generalize (run_env (prologue init) e) as e0.
    intros e0 s cfg. revert s e0.
    induction ins as [| i ins IH]; intros s e0; [constructor |].
    unfold run_events in *. destruct (in_run i) eqn:Hr.
    + rewrite (SoundLoop_while_step cfg i ins s e0 Hr). cbn [snd frames_requested].
      rewrite frames_requested_app. apply Forall_app. split; [| apply IH].
      unfold run_events.
      destruct (cycle_cases cfg i s e0) as [[_ Hcy] | [[_ [_ Hcy]] | [_ [_ Hcy]]]];
        rewrite Hcy; cbn [snd].
      * constructor.
      * rewrite frames_requested_front. constructor; [| constructor].
        apply requested_bounded. exact HM.
      * rewrite frames_requested_app, frames_requested_front, frames_requested_back.
        constructor; [| constructor]. apply requested_bounded. exact HM.
    + rewrite (SoundLoop_while_exit cfg i ins s e0 Hr). constructor.
Qed.

Ltac count_trace :=
  unfold occurrences; open_trace; split_ifs;
  cbn [filter app List.length is_mix is_put is_receive is_speed_read is_set_tempo];
  reflexivity.

Lemma occurrences_front cfg i (e : Env ST) :
  occurrences is_mix (front_events cfg i e) = 1%nat
  /\ occurrences is_put (front_events cfg i e) = 1%nat
  /\ occurrences is_receive (front_events cfg i e) = 1%nat.
Proof. repeat split; count_trace. Qed.

Lemma occurrences_back cfg i s (e : Env ST) :
  occurrences is_mix (back_events cfg i s e) = 0%nat
  /\ occurrences is_put (back_events cfg i s e) = 0%nat
  /\ occurrences is_receive (back_events cfg i s e) = 0%nat
  /\ occurrences is_speed_read (back_events cfg i s e) = 0%nat
  /\ filter is_set_tempo (back_events cfg i s e) = [].
Proof. repeat split; count_trace. Qed.

(** X15: a cycle that does not wait pulls from the mixer once, feeds the
    engine once and drains it once, also when it then skips the submission:
    the samples a skipping cycle has drained are gone from the engine and
    are written nowhere.  A waiting cycle calls neither mixer nor engine. *)
Theorem cycle_pulls_and_drains_once cfg i s (e : Env ST) :
  (wait_cond cfg i s = true ->
   occurrences is_mix (run_events (cycle cfg i s) e) = 0%nat
   /\ occurrences is_put (run_events (cycle cfg i s) e) = 0%nat
   /\ occurrences is_receive (run_events (cycle cfg i s) e) = 0%nat
   /\ soundTouch (run_env (cycle cfg i s) e) = soundTouch e)
  /\ (wait_cond cfg i s = false ->
      occurrences is_mix (run_events (cycle cfg i s) e) = 1%nat
      /\ occurrences is_put (run_events (cycle cfg i s) e) = 1%nat
      /\ occurrences is_receive (run_events (cycle cfg i s) e) = 1%nat
      /\ soundTouch (run_env (cycle cfg i s) e) = snd (drain cfg i (soundTouch e))
      /\ (fst (run_value (cycle cfg i s) e) = Skipped ->
          formats_written (run_events (cycle cfg i s) e) = [])).
Proof.
  unfold run_events, run_env, run_value.
  destruct (occurrences_front cfg i e) as (Hf1 & Hf2 & Hf3).
  destruct (occurrences_back cfg i s e) as (Hb1 & Hb2 & Hb3 & _).
  destruct (cycle_cases cfg i s e) as [[Hw Hc] | [[Hw [_ Hc]] | [Hw [_ Hc]]]];
    rewrite Hc, Hw; cbn [fst snd soundTouch].
  - split; [intros _; repeat split; reflexivity | discriminate].
  - split; [discriminate | intros _].
    repeat split; try assumption. intros _. apply formats_written_front.
  - split; [discriminate | intros _].
    rewrite !occurrences_app, Hf1, Hf2, Hf3, Hb1, Hb2, Hb3.
    repeat split; try reflexivity. discriminate.
Qed.

(** X16: a multiplier above 0.10 and not above 10 is applied and nothing is
    cleared: the cycle calls [setTempo] once, with that multiplier, never
    [clear], and drains the engine under the new tempo. *)
Theorem cycle_applies_tempo_in_range cfg i s (e : Env ST) :
  wait_cond cfg i s = false ->
  F64.gt (final_rate i) F64.tenth = true ->
  F64.gt (final_rate i) F64.ten = false ->
  filter is_set_tempo (run_events (cycle cfg i s) e) = [EvSetTempo (final_rate i)]
  /\ ~ In EvClear (run_events (cycle cfg i s) e)
  /\ soundTouch (run_env (cycle cfg i s) e)
     = snd (receiveSamples (OAL_MAX_SAMPLES * numBuffers cfg)
              (setTempo (final_rate i)
                 (putSamples (ingested i) (fst (in_mix i)) (soundTouch e)))).
Proof.
  intros Hw Hlo Hhi.
  assert (Hfront : filter is_set_tempo (front_events cfg i e) = [EvSetTempo (final_rate i)]).
  { open_trace. rewrite Hlo, Hhi. split_ifs; reflexivity. }
  assert (Hclear : ~ In EvClear (front_events cfg i e)).
  { intros Hin. unfold front_events, stretch_events, tempo_events in Hin.
    rewrite Hlo, Hhi in Hin. open_events Hin. split_in; discriminate. }
  assert (Hclear' : ~ In EvClear (back_events cfg i s e)).
  { intros Hin. open_events Hin. split_in; discriminate. }
  assert (Hdrain : snd (drain cfg i (soundTouch e))
            = snd (receiveSamples (OAL_MAX_SAMPLES * numBuffers cfg)
                     (setTempo (final_rate i)
                        (putSamples (ingested i) (fst (in_mix i)) (soundTouch e))))).
  { unfold drain, tempo_engine. rewrite Hlo, Hhi. reflexivity. }
  destruct (occurrences_back cfg i s e) as (_ & _ & _ & _ & Hback).
  unfold run_events, run_env.
  destruct (cycle_cases cfg i s e) as [[Hw' _] | [[_ [_ Hc]] | [_ [_ Hc]]]];
    [congruence | |]; rewrite Hc; cbn [fst snd soundTouch].
  - repeat split; assumption.
  - rewrite filter_app, Hfront, Hback. split; [reflexivity | split; [| exact Hdrain]].
    intros Hin. apply in_app_or in Hin. tauto.
Qed.

Lemma speed_reads_front cfg i (e : Env ST) :
  occurrences is_speed_read (front_events cfg i e)
  = (if F64.le (in_speed i) F64.zero then 2 else 1)%nat.
Proof. count_trace. Qed.

(** X17: the speed is read again, after a refresh request, exactly when the
    first reading is not positive, and only once: a cycle reads the speed at
    most twice and takes the second reading as it is.  A reading that is not
    a number is not read again and is not applied. *)
Theorem cycle_rereads_speed_once cfg i s (e : Env ST) :
  wait_cond cfg i s = false ->
  (In EvRequestRefreshInfo (run_events (cycle cfg i s) e) <->
   F64.le (in_speed i) F64.zero = true)
  /\ occurrences is_speed_read (run_events (cycle cfg i s) e)
     = (if F64.le (in_speed i) F64.zero then 2 else 1)%nat
  /\ (F64.le (in_speed i) F64.zero = true -> final_rate i = in_speed_again i)
  /\ (in_speed i = S754_nan ->
      ~ In EvRequestRefreshInfo (run_events (cycle cfg i s) e)
      /\ filter is_set_tempo (run_events (cycle cfg i s) e) = []).
Proof.
  intros Hw.
  assert (Hfront : In EvRequestRefreshInfo (front_events cfg i e) <->
                   F64.le (in_speed i) F64.zero = true).
  { split.
    - intros Hin. open_events Hin. split_in; try discriminate; reflexivity.
    - intros Hle. unfold front_events, stretch_events, rate_events. rewrite Hle.
      right. apply in_or_app. right. cbn. tauto. }
  assert (Hback : ~ In EvRequestRefreshInfo (back_events cfg i s e)).
  { intros Hin. open_events Hin. split_in; discriminate. }
  destruct (occurrences_back cfg i s e) as (_ & _ & _ & Hb & Hbt).
  assert (Hiff : In EvRequestRefreshInfo (run_events (cycle cfg i s) e) <->
                 F64.le (in_speed i) F64.zero = true).
  { unfold run_events.
    destruct (cycle_cases cfg i s e) as [[Hw' _] | [[_ [_ Hc]] | [_ [_ Hc]]]];
      [congruence | |]; rewrite Hc; cbn [snd]; [exact Hfront |].
    rewrite <- Hfront. split.
    - intros Hin. apply in_app_or in Hin. tauto.
    - intros Hin. apply in_or_app. left. exact Hin. }
  split; [exact Hiff | split; [| split]].
  - unfold run_events.
    destruct (cycle_cases cfg i s e) as [[Hw' _] | [[_ [_ Hc]] | [_ [_ Hc]]]];
      [congruence | |]; rewrite Hc; cbn [snd].
    + apply speed_reads_front.
    + rewrite occurrences_app, speed_reads_front, Hb. apply Nat.add_0_r.
  - intros Hle. unfold final_rate. rewrite Hle. reflexivity.
  - intros Hnan.
    assert (Hle : F64.le (in_speed i) F64.zero = false) by (rewrite Hnan; reflexivity).
    split; [rewrite Hiff, Hle; discriminate |].
    assert (Hrate : final_rate i = S754_nan)
      by (unfold final_rate; rewrite Hle; exact Hnan).
    assert (Hft : filter is_set_tempo (front_events cfg i e) = []).
    { open_trace. rewrite Hrate.
      change (F64.gt S754_nan F64.tenth) with false. split_ifs; reflexivity. }
    unfold run_events.
    destruct (cycle_cases cfg i s e) as [[Hw' _] | [[_ [_ Hc]] | [_ [_ Hc]]]];
      [congruence | |]; rewrite Hc; cbn [snd]; [exact Hft |].
    rewrite filter_app, Hft, Hbt. reflexivity.
Qed.

(** X18: the surround warning is logged exactly in the cycles that clear the
    surround flag; clearing the float32 flag logs no warning. *)
Theorem cycle_warns_iff_surround_cleared cfg i s (e : Env ST) :
  (exists msg, In (EvWarnLog msg) (run_events (cycle cfg i s) e)) <->
  surround_capable s = true
  /\ surround_capable (snd (run_value (cycle cfg i s) e)) = false.
Proof.
  unfold run_events, run_value.
  destruct (flags_reclaimed i s) as [Hrs Hrf].
  assert (Hfront : forall msg, ~ In (EvWarnLog msg) (front_events cfg i e)).
  { intros msg Hin. open_events Hin. split_in; discriminate. }
  destruct (cycle_cases cfg i s e) as [[_ Hc] | [[_ [_ Hc]] | [_ [_ Hc]]]];
    rewrite Hc; cbn [fst snd].
  - split.
    + intros [msg Hin]. split_in; discriminate.
    + intros [H1 H2]. congruence.
  - split.
    + intros [msg Hin]. elim (Hfront msg Hin).
    + intros [H1 H2]. rewrite Hrs in H2. congruence.
  - unfold queued. cbn [surround_capable]. unfold back_events, encode_events, encoded.
    cbv zeta. rewrite Hrs, Hrf.
    destruct (surround_capable s) eqn:Hs.
    + destruct (latch (pending_at_write i e) (in_buffer_err i) =? AL_INVALID_ENUM) eqn:Hp.
      * split; [intros _; split; reflexivity |]. intros _. eexists.
        apply in_or_app. right. apply in_or_app. left.
        apply in_or_app. right. apply in_or_app. right. left. reflexivity.
      * split; [| intros [_ H2]; rewrite Hrs in H2; discriminate].
        intros [msg Hin]. apply in_app_or in Hin. destruct Hin as [Hin | Hin];
          [elim (Hfront msg Hin) |].
        open_events Hin. split_in; discriminate.
    + split; [| intros [H1 _]; discriminate].
      intros [msg Hin]. apply in_app_or in Hin. destruct Hin as [Hin | Hin];
        [elim (Hfront msg Hin) |].
      open_events Hin. split_in; discriminate.
Qed.

(** X19: a cycle changes a capability flag only when the error fetched after
    the buffer-data write is [AL_INVALID_ENUM]; any other error leaves both
    flags as they are, and so does a rejection that is hidden behind an
    error already pending at the write.  A cycle never changes both
    flags. *)
Theorem cycle_downgrades_only_on_invalid_enum cfg i s (e : Env ST) :
  let s' := snd (run_value (cycle cfg i s) e) in
  (latch (pending_at_write i e) (in_buffer_err i) <> AL_INVALID_ENUM ->
   surround_capable s' = surround_capable s /\ float32_capable s' = float32_capable s)
  /\ (pending_at_write i e <> AL_NO_ERROR -> pending_at_write i e <> AL_INVALID_ENUM ->
      surround_capable s' = surround_capable s /\ float32_capable s' = float32_capable s)
  /\ (surround_capable s' = surround_capable s \/ float32_capable s' = float32_capable s).
Proof.
  cbv zeta. unfold run_value.
  destruct (flags_reclaimed i s) as [Hrs Hrf].
  assert (Hmask : pending_at_write i e <> AL_NO_ERROR ->
                  latch (pending_at_write i e) (in_buffer_err i) = pending_at_write i e).
  { intros Hp. unfold latch. apply Z.eqb_neq in Hp. rewrite Hp. reflexivity. }
  destruct (cycle_cases cfg i s e) as [[_ Hc] | [[_ [_ Hc]] | [_ [_ Hc]]]];
    rewrite Hc; cbn [fst snd]; rewrite ?Hrs, ?Hrf; try tauto.
  unfold queued, encoded. cbn [surround_capable float32_capable]. rewrite Hrs, Hrf.
  destruct (latch (pending_at_write i e) (in_buffer_err i) =? AL_INVALID_ENUM) eqn:Hp.
  - apply Z.eqb_eq in Hp.
    split; [intros Hne; congruence | split].
    + intros H0 Hne. rewrite (Hmask H0) in Hp. congruence.
    + destruct (surround_capable s), (float32_capable s);
        cbn [surround_capable float32_capable]; tauto.
  - destruct (surround_capable s), (float32_capable s);
      cbn [surround_capable float32_capable]; rewrite ?Hrs, ?Hrf; tauto.
Qed.

(** ** Further properties: samples, volume and buffers *)

Lemma octets_spec k : In k octets <-> 0 <= k < 256.
Proof.
  unfold octets. rewrite in_map_iff. split.
  - intros [n [<- Hn]]. apply in_seq in Hn. lia.
  - intros Hk. exists (Z.to_nat k). split; [lia |]. apply in_seq. lia.
Qed.

Lemma every_short_spec (f : Z -> bool) x :
  every_short f = true -> SHRT_MIN <= x <= SHRT_MAX -> f x = true.
Proof.
  unfold every_short, SHRT_MIN, SHRT_MAX. intros Hall Hx.
  pose proof (Z.div_mod (x + 32768) 256 ltac:(lia)) as Hdm.
  pose proof (Z.mod_pos_bound (x + 32768) 256 ltac:(lia)) as Hlo.
  assert (Hhi : 0 <= (x + 32768) / 256 < 256).
  { split; [apply Z.div_pos; lia | apply Z.div_lt_upper_bound; lia]. }
  pose proof (proj1 (forallb_forall _ _) Hall _ (proj2 (octets_spec _) Hhi)) as Hrow.
  pose proof (proj1 (forallb_forall _ _) Hrow _ (proj2 (octets_spec _) Hlo)) as Hc.
  cbv beta in Hc.
  replace (256 * ((x + 32768) / 256) + (x + 32768) mod 256 + -32768) with x in Hc
    by lia.
  exact Hc.
Qed.

Lemma every_short_converts :
  every_short (fun x => short_round_trips x && sample_in_unit_range x) = true.
Proof. vm_cast_no_check (@eq_refl bool true). Qed.

Lemma array_map_upto_all {A B} (d : A) (f : A -> B) (a : list A) :
  array_map_upto d f a (Z.of_nat (List.length a)) = map f a.
Proof.
  unfold array_map_upto, array_get. rewrite Nat2Z.id.
  induction a as [| h t IH]; [reflexivity |].
  cbn [List.length seq map nth]. f_equal.
  rewrite <- seq_shift, map_map. exact IH.
Qed.

(** X20: every 16-bit sample survives the conversion to float and back:
    dividing by 2^15 and then multiplying by 2^15 and casting gives the
    sample again, with a defined cast.  A whole buffer of 16-bit samples
    converted on line 264 and converted back on line 347 is unchanged. *)
Theorem short_sample_round_trip x (buf : list Z) :
  (SHRT_MIN <= x <= SHRT_MAX -> sample_to_short (short_to_sample x) = Some x)
  /\ (Forall (fun y => SHRT_MIN <= y <= SHRT_MAX) buf ->
      array_map_upto F32.zero sample_to_short
        (array_map_upto 0 short_to_sample buf (Z.of_nat (List.length buf)))
        (Z.of_nat (List.length buf))
      = map Some buf).
Proof.
  assert (Hone : forall y, SHRT_MIN <= y <= SHRT_MAX ->
                           sample_to_short (short_to_sample y) = Some y).
  { intros y Hy.
    pose proof (every_short_spec _ y every_short_converts Hy) as Hc.
    cbv beta in Hc. apply andb_true_iff in Hc. destruct Hc as [Hc _].
    unfold short_round_trips in Hc.
    destruct (sample_to_short (short_to_sample y)) as [z |]; [| discriminate].
    apply Z.eqb_eq in Hc. congruence. }
  split; [apply Hone |].
  intros Hall. rewrite (array_map_upto_all 0 short_to_sample buf).
  rewrite <- (length_map short_to_sample buf) at 1.
  rewrite array_map_upto_all, map_map.
  apply map_ext_in. intros y Hy. apply Hone.
  exact (proj1 (Forall_forall _ _) Hall y Hy).
Qed.

(** X21: the samples handed to the engine lie in [-1, 1): a 16-bit sample
    divided by 2^15 is at least -1 and below 1, so the value 1.0 that does
    not fit the 16-bit cast never comes from the mixer directly. *)
Theorem ingested_samples_in_unit_range x :
  SHRT_MIN <= x <= SHRT_MAX ->
  SFleb (F32.of_Z (-1)) (short_to_sample x) = true
  /\ SFltb (short_to_sample x) F32.one = true
  /\ short_to_sample SHRT_MIN = F32.of_Z (-1).
Proof.
  intros Hx.
  pose proof (every_short_spec _ x every_short_converts Hx) as Hc.
  cbv beta in Hc. apply andb_true_iff in Hc. destruct Hc as [_ Hc].
  unfold sample_in_unit_range in Hc. apply andb_true_iff in Hc.
  destruct Hc as [H1 H2].
  split; [exact H1 | split; [exact H2 | vm_compute; reflexivity]].
Qed.

Lemma all_volumes_spec v : In v all_volumes <-> 0 <= v <= 100.
Proof.
  unfold all_volumes. rewrite in_map_iff. split.
  - intros [k [<- Hk]]. apply in_seq in Hk. lia.
  - intros Hv. exists (Z.to_nat v). split; [lia |]. apply in_seq. lia.
Qed.

Lemma all_volumes_ordered :
  forallb (fun v => forallb (fun w => negb (v <=? w)
                                      || SFleb (volume_gain v) (volume_gain w))
                            all_volumes) all_volumes = true.
Proof. vm_compute. reflexivity. Qed.

(** X22: the gain of a volume between 0 and 100 percent lies between 0 and
    1, with 0 and 1 at the ends, and a higher volume never gives a lower
    gain.  [SetVolume] does not clamp: 200 percent gives the gain 2. *)
Theorem volume_gain_monotone v w :
  0 <= v -> v <= w -> w <= 100 ->
  SFleb (volume_gain v) (volume_gain w) = true
  /\ SFleb F32.zero (volume_gain v) = true
  /\ SFleb (volume_gain w) F32.one = true
  /\ volume_gain 0 = F32.zero
  /\ volume_gain 100 = F32.one
  /\ volume_gain 200 = F32.of_Z 2.
Proof.
  intros H0 Hvw H100.
  assert (Hle : forall a b, 0 <= a -> a <= b -> b <= 100 ->
                            SFleb (volume_gain a) (volume_gain b) = true).
  { intros a b Ha Hab Hb.
    assert (Hina : In a all_volumes) by (apply all_volumes_spec; lia).
    assert (Hinb : In b all_volumes) by (apply all_volumes_spec; lia).
    pose proof (proj1 (forallb_forall _ _) all_volumes_ordered a Hina) as Hrow.
    pose proof (proj1 (forallb_forall _ _) Hrow b Hinb) as Hc.
    cbv beta in Hc. apply Z.leb_le in Hab. rewrite Hab in Hc. exact Hc. }
  split; [apply Hle; assumption |].
  split; [apply (Hle 0 v); lia |].
  split; [apply (Hle w 100); lia |].
  split; [vm_compute; reflexivity |].
  split; vm_compute; reflexivity.
Qed.

Lemma length_array_set {A} (a : list A) k (v : A) :
  List.length (array_set a k v) = List.length a.
Proof.
  revert k. induction a as [| h t IH]; intros [| k]; cbn [array_set List.length];
    try reflexivity.
  rewrite IH. reflexivity.
Qed.

Lemma array_get_set_same {A} (d : A) (a : list A) k (v : A) :
  (k < List.length a)%nat -> array_get d (array_set a k v) k = v.
Proof.
  unfold array_get. revert k.
  induction a as [| h t IH]; intros [| k] Hk; cbn [List.length] in Hk;
    cbn [array_set nth]; try lia; [reflexivity |].
  apply IH. lia.
Qed.

Lemma array_get_set_other {A} (d : A) (a : list A) k j (v : A) :
  k <> j -> array_get d (array_set a k v) j = array_get d a j.
Proof.
  unfold array_get. revert k j.
  induction a as [| h t IH]; intros [| k] [| j] Hkj; cbn [array_set nth];
    try reflexivity; try congruence.
  apply IH. congruence.
Qed.

Lemma array_get_set_kept {A} (d : A) (a : list A) k j (v : A) :
  array_get d a j = v -> array_get d (array_set a k v) j = v.
Proof.
  intros Hj. destruct (Nat.eq_dec k j) as [-> | Hne].
  - destruct (Nat.lt_ge_cases j (List.length a)) as [Hlt | Hge].
    + apply array_get_set_same. exact Hlt.
    + unfold array_get in *. rewrite nth_overflow in Hj by exact Hge.
      rewrite nth_overflow by (rewrite length_array_set; exact Hge). exact Hj.
  - rewrite array_get_set_other by exact Hne. exact Hj.
Qed.

(** X23: zeroing the LFE channel keeps the length of the decoded buffer,
    sets the fourth sample of each of the first [nSamples] frames to zero
    and changes no other sample: the five remaining channels of a frame
    and every frame from [nSamples] on are as the decoder left them. *)
Theorem zero_lfe_only_lfe (dpl2 : list spec_float) (nSamples : Z) (d : spec_float) :
  List.length (zero_lfe dpl2 nSamples) = List.length dpl2
  /\ (forall k, (k < Z.to_nat nSamples)%nat ->
                (k * 6 + 3 < List.length dpl2)%nat ->
                array_get d (zero_lfe dpl2 nSamples) (k * 6 + 3) = F32.zero)
  /\ (forall j, (forall k, (k < Z.to_nat nSamples)%nat -> j <> (k * 6 + 3)%nat) ->
                array_get d (zero_lfe dpl2 nSamples) j = array_get d dpl2 j).
Proof.
  unfold zero_lfe.
  change (Z.to_nat SURROUND_CHANNELS) with 6%nat.
  assert (Hin : forall k, In k (seq 0 (Z.to_nat nSamples)) <-> (k < Z.to_nat nSamples)%nat).
  { intros k. rewrite in_seq. lia. }
  revert Hin. generalize (seq 0 (Z.to_nat nSamples)) as ks.
  generalize (Z.to_nat nSamples) as n. intros n ks.
  set (f := fun (a : list spec_float) (i : nat) => array_set a (i * 6 + 3) F32.zero).
  intros Hin.
  assert (Hlen : forall l a, List.length (fold_left f l a) = List.length a).
  { induction l as [| k l IH]; intros a; cbn [fold_left]; [reflexivity |].
    rewrite IH. apply length_array_set. }
  assert (Hkept : forall l a j, array_get d a j = F32.zero ->
                                array_get d (fold_left f l a) j = F32.zero).
  { induction l as [| k l IH]; intros a j Hj; cbn [fold_left]; [exact Hj |].
    apply IH. apply array_get_set_kept. exact Hj. }
  assert (Hhit : forall l a k, In k l -> (k * 6 + 3 < List.length a)%nat ->
                               array_get d (fold_left f l a) (k * 6 + 3) = F32.zero).
  { induction l as [| k0 l IH]; intros a k Hk Hlt; [destruct Hk |].
    cbn [fold_left]. destruct Hk as [-> | Hk].
    - apply Hkept. apply array_get_set_same. exact Hlt.
    - apply IH; [exact Hk |]. unfold f. rewrite length_array_set. exact Hlt. }
  assert (Hmiss : forall l a j, (forall k, In k l -> j <> (k * 6 + 3)%nat) ->
                                array_get d (fold_left f l a) j = array_get d a j).
  { induction l as [| k0 l IH]; intros a j Hj; cbn [fold_left]; [reflexivity |].
    rewrite IH by (intros k Hk; apply Hj; right; exact Hk).
    apply array_get_set_other. intros Heq. apply (Hj k0); [left; reflexivity |].
    symmetry. exact Heq. }
  split; [apply Hlen |]. split.
  - intros k Hk Hlt. apply Hhit; [apply Hin; exact Hk | exact Hlt].
  - intros j Hj. apply Hmiss. intros k Hk. apply Hj. apply Hin. exact Hk.
Qed.

End Loop.

(** ** Runs of the loop *)

Local Abbreviation toy_cycle := (cycle Toy.DPL2Decode 256 Toy.cfg).
Local Abbreviation toy_loop := (SoundLoop_while Toy.DPL2Decode 256 Toy.cfg).
Local Abbreviation toy_SoundLoop := (SoundLoop Toy.DPL2Decode 256).

Ltac in_trace := vm_compute; repeat first [left; reflexivity | right].
Ltac by_run := vm_compute; first [reflexivity | discriminate].

Example probe_plain : probe_capabilities Toy.init = (false, true).
Proof. by_run. Qed.

Example probe_xfi : probe_capabilities Toy.init_xfi = (true, false).
Proof. by_run. Qed.

Example short_to_sample_half : short_to_sample 16384 = S754_finite false 8388608 (-24).
Proof. by_run. Qed.

Example sample_to_short_half : sample_to_short (short_to_sample 16384) = Some 16384.
Proof. by_run. Qed.

Example sample_to_short_lowest : sample_to_short (short_to_sample (-32768)) = Some (-32768).
Proof. by_run. Qed.

Example tenth_is_one_tenth : F64.div F64.one F64.ten = F64.tenth.
Proof. by_run. Qed.

(** Four buffers, the mixer always delivering, speed 1.0, stereo float32:
    every cycle writes and queues one float32 stereo buffer, the cursor goes
    round the ring, and nothing is logged. *)
Example steady_stereo_float :
  formats_written
    (run_events (toy_SoundLoop Toy.init
                   [Toy.plain; Toy.turnover; Toy.turnover; Toy.turnover; Toy.turnover;
                    Toy.turnover]) Toy.fresh)
  = repeat AL_FORMAT_STEREO_FLOAT32 6
  /\ buffers_queued
       (run_events (toy_SoundLoop Toy.init
                      [Toy.plain; Toy.turnover; Toy.turnover; Toy.turnover; Toy.turnover;
                       Toy.turnover]) Toy.fresh)
     = [11; 12; 13; 14; 11; 12]
  /\ errors_logged
       (run_events (toy_SoundLoop Toy.init
                      [Toy.plain; Toy.turnover; Toy.turnover; Toy.turnover; Toy.turnover;
                       Toy.turnover]) Toy.fresh)
     = [].
Proof. split; [| split]; by_run. Qed.

(** With surround on and only two frames drained, three cycles in a row
    submit nothing. *)
Example surround_below_window :
  formats_written
    (run_events (toy_loop [Toy.plain; Toy.plain; Toy.plain] Toy.surround_float) Toy.fresh)
  = [].
Proof. by_run. Qed.

(** A rejected surround write clears the surround flag, logs the warning,
    and the next cycle writes float32 stereo. *)
Example surround_rejected :
  formats_written
    (run_events (toy_loop [Toy.long_rejected; Toy.long] Toy.surround_float) Toy.fresh)
  = [AL_FORMAT_51CHN32; AL_FORMAT_STEREO_FLOAT32]
  /\ In (EvWarnLog
           "Unable to set 5.1 surround mode.  Updating OpenAL Soft might fix this issue.")
        (run_events (toy_loop [Toy.long_rejected; Toy.long] Toy.surround_float)
                    Toy.fresh).
Proof. split; [by_run | in_trace]. Qed.

(** With float32 off the surround path writes 16-bit data, the fourth
    channel of every frame zero. *)
Example surround_short_frame :
  payload_of Toy.DPL2Decode Toy.surround_short
    [short_to_sample 100; short_to_sample (-100)] 1
  = ShortData [Some 100; Some (-100); Some 100; Some 0; Some 100; Some (-100)]
  /\ formats_written
       (run_events (toy_loop [Toy.long] Toy.surround_short) Toy.fresh)
     = [AL_FORMAT_51CHN16].
Proof. split; by_run. Qed.

(** ** The claims on concrete runs *)

(** C1 as stated fails: the float32 stereo write of buffer 11 is rejected,
    the flag is cleared, and the slot is queued all the same: the count of
    queued buffers and the cursor both advance. *)
Lemma C1_rejected_slot_is_queued :
  in_buffer_err Toy.rejected = AL_INVALID_ENUM
  /\ In (EvErrorLog "buffering float32 data" AL_INVALID_ENUM "AL_INVALID_ENUM")
        (run_events (toy_cycle Toy.rejected Toy.stereo_float) Toy.fresh)
  /\ float32_capable (snd (run_value (toy_cycle Toy.rejected Toy.stereo_float) Toy.fresh))
     = false
  /\ In (EvQueueBuffers 11)
        (run_events (toy_cycle Toy.rejected Toy.stereo_float) Toy.fresh)
  /\ numBuffersQueued (snd (run_value (toy_cycle Toy.rejected Toy.stereo_float) Toy.fresh))
     = 1
  /\ nextBuffer (snd (run_value (toy_cycle Toy.rejected Toy.stereo_float) Toy.fresh)) = 1.
Proof.
  split; [by_run |]. split; [in_trace |]. split; [by_run |].
  split; [in_trace |]. split; by_run.
Qed.

Lemma C1_witness :
  pending_at_write Toy.rejected Toy.fresh = AL_NO_ERROR
  /\ in_buffer_err Toy.rejected = AL_INVALID_ENUM
  /\ format_of Toy.stereo_float <> AL_FORMAT_STEREO16
  /\ fst (run_value (toy_cycle Toy.rejected Toy.stereo_float) Toy.fresh) = Queued
  /\ format_of (snd (run_value (toy_cycle Toy.rejected Toy.stereo_float) Toy.fresh))
     = lowered (format_of Toy.stereo_float).
Proof.
  assert (He : pending_at_write Toy.rejected Toy.fresh = AL_NO_ERROR) by by_run.
  assert (Hb : in_buffer_err Toy.rejected = AL_INVALID_ENUM) by by_run.
  assert (Hfmt : format_of Toy.stereo_float <> AL_FORMAT_STEREO16) by by_run.
  assert (Hq : fst (run_value (toy_cycle Toy.rejected Toy.stereo_float) Toy.fresh)
               = Queued) by by_run.
  split; [exact He |]. split; [exact Hb |]. split; [exact Hfmt |]. split; [exact Hq |].
  pose proof (C1_rejected_write_downgrades Toy.DPL2Decode 256 Toy.cfg Toy.rejected
                Toy.plain Toy.stereo_float Toy.fresh He Hb Hfmt Hq) as Hthm.
  cbv zeta in Hthm. destruct Hthm as (_ & _ & Hlow & _). exact Hlow.
Defined.

(** C2 as stated fails: after a cycle at double speed the engine keeps that
    tempo, and in the next cycle, whose speed reads zero twice, what the
    synchronizer drains is not the samples it ingested. *)
Lemma C2_low_rate_output_differs :
  F64.le (final_rate Toy.stalled) F64.tenth = true
  /\ snd (run_value (stretch 256 Toy.cfg Toy.stalled)
            (run_env (toy_cycle Toy.fast Toy.stereo_float) Toy.fresh))
     <> ingested Toy.stalled.
Proof.
  split; by_run.
Qed.

Lemma C2_witness :
  F64.le (final_rate Toy.stalled) F64.tenth = true
  /\ ~ In EvClear (run_events (toy_cycle Toy.stalled Toy.stereo_float) Toy.fresh).
Proof.
  assert (Hle : F64.le (final_rate Toy.stalled) F64.tenth = true) by by_run.
  split; [exact Hle |].
  pose proof (C2_low_rate_sets_no_tempo Toy.DPL2Decode 256 Toy.cfg Toy.stalled
                Toy.stereo_float Toy.fresh Hle) as Hthm.
  destruct Hthm as (_ & Hclear & _). exact Hclear.
Defined.

(** C3 as stated fails: without surround the minimum is 0 and the drained
    count 0 is not below it, yet the cycle skips encoding and queuing. *)
Lemma C3_zero_samples_skipped_in_stereo :
  wait_cond Toy.cfg Toy.silent Toy.stereo_float = false
  /\ surround_capable Toy.stereo_float = false
  /\ drained_count 256 Toy.cfg Toy.silent (soundTouch Toy.fresh) = 0
  /\ ~ drained_count 256 Toy.cfg Toy.silent (soundTouch Toy.fresh) < 0
  /\ fst (run_value (toy_cycle Toy.silent Toy.stereo_float) Toy.fresh) = Skipped
  /\ formats_written (run_events (toy_cycle Toy.silent Toy.stereo_float) Toy.fresh) = [].
Proof.
  split; [by_run |]. split; [by_run |]. split; [by_run |].
  split; [by_run |]. split; by_run.
Qed.

Lemma C3_witness :
  wait_cond Toy.cfg Toy.plain Toy.stereo_float = false
  /\ minSamples Toy.stereo_float
     < drained_count 256 Toy.cfg Toy.plain (soundTouch Toy.fresh)
  /\ fst (run_value (toy_cycle Toy.plain Toy.stereo_float) Toy.fresh) = Queued.
Proof.
  assert (Hw : wait_cond Toy.cfg Toy.plain Toy.stereo_float = false) by by_run.
  assert (Hn : minSamples Toy.stereo_float
               < drained_count 256 Toy.cfg Toy.plain (soundTouch Toy.fresh)) by by_run.
  split; [exact Hw |]. split; [exact Hn |].
  pose proof (C3_skip_below_minimum Toy.DPL2Decode 256 Toy.cfg Toy.plain
                Toy.stereo_float Toy.fresh Hw) as Hthm.
  cbv zeta in Hthm. destruct Hthm as (_ & _ & _ & Hq & _). exact (Hq Hn).
Defined.

Lemma C4_witness :
  In (EvGetCurrentSpeed Toy.twenty)
     (run_events (toy_cycle Toy.hyper Toy.stereo_float) Toy.fresh)
  /\ F64.gt Toy.twenty F64.ten = true
  /\ exists pre post,
       run_events (toy_cycle Toy.hyper Toy.stereo_float) Toy.fresh
       = pre ++ [EvSetTempo Toy.twenty; EvClear] ++ post.
Proof.
  assert (Hin : In (EvGetCurrentSpeed Toy.twenty)
                   (run_events (toy_cycle Toy.hyper Toy.stereo_float) Toy.fresh))
    by in_trace.
  assert (Hm : F64.gt Toy.twenty F64.ten = true) by by_run.
  split; [exact Hin |]. split; [exact Hm |].
  pose proof (C4_clear_right_after_tempo_above_ten Toy.DPL2Decode 256 Toy.cfg
                Toy.hyper Toy.stereo_float Toy.fresh Toy.twenty Hin Hm) as Hthm.
  destruct Hthm as [(pre & post & Heq & _) _].
  exists pre, post. exact Heq.
Defined.

Lemma C5_witness :
  float32_capable
    (locals_of (run_value (SoundLoop Toy.DPL2Decode 256 Toy.init [Toy.rejected])
                          Toy.fresh)) = false
  /\ float32_capable
       (locals_of
          (run_value (SoundLoop Toy.DPL2Decode 256 Toy.init
                        ([Toy.rejected] ++ [Toy.plain; Toy.plain]))
                     Toy.fresh)) = false.
Proof.
  assert (Hoff : float32_capable
                   (locals_of
                      (run_value (SoundLoop Toy.DPL2Decode 256 Toy.init [Toy.rejected])
                                 Toy.fresh)) = false) by by_run.
  split; [exact Hoff |].
  pose proof (C5_downgrade_is_monotonic Toy.DPL2Decode 256 Toy.init
                [Toy.rejected] [Toy.plain; Toy.plain] Toy.fresh) as Hthm.
  cbv zeta in Hthm. destruct Hthm as [_ Hf]. exact (Hf Hoff).
Defined.


Lemma C7_witness :
  fst (run_value (toy_cycle Toy.plain Toy.stereo_float) Toy.fresh) = Queued
  /\ in_state Toy.plain <> AL_PLAYING
  /\ exists pre post,
       run_events (toy_cycle Toy.plain Toy.stereo_float) Toy.fresh
       = pre ++ EvQueueBuffers (buffer_of Toy.cfg Toy.stereo_float) :: post
       /\ In EvSourcePlay post.
Proof.
  assert (Hq : fst (run_value (toy_cycle Toy.plain Toy.stereo_float) Toy.fresh) = Queued)
    by by_run.
  assert (Hst : in_state Toy.plain <> AL_PLAYING) by by_run.
  split; [exact Hq |]. split; [exact Hst |].
  pose proof (C7_resume_iff_not_playing Toy.DPL2Decode 256 Toy.cfg Toy.plain
                Toy.stereo_float Toy.fresh Hq) as Hthm.
  destruct Hthm as (pre & post & Heq & _ & _ & Hplay).
  exists pre, post. split; [exact Heq |]. exact (proj2 Hplay Hst).
Defined.

Lemma C8_witness :
  In EvWait (run_events (toy_cycle Toy.plain Toy.full) Toy.fresh)
  /\ in_run Toy.plain = true
  /\ in_run Toy.stop = false
  /\ run_value (toy_loop [Toy.plain; Toy.stop] Toy.full) Toy.fresh = Exited Toy.full.
Proof.
  assert (Hin : In EvWait (run_events (toy_cycle Toy.plain Toy.full) Toy.fresh))
    by in_trace.
  assert (Hr : in_run Toy.plain = true) by by_run.
  assert (Hn : in_run Toy.stop = false) by by_run.
  split; [exact Hin |]. split; [exact Hr |]. split; [exact Hn |].
  pose proof (C8_wait_then_recheck_run_flag Toy.DPL2Decode 256 Toy.cfg
                Toy.plain Toy.full Toy.fresh) as Hthm.
  destruct Hthm as (_ & Hexit & _).
  destruct (Hexit Hin) as [_ Hnext].
  destruct (Hnext Toy.stop [] Hr) as (tail & _ & Hstop).
  exact (proj2 (Hstop Hn)).
Defined.


(** C10 as stated fails: the rejection of a 16-bit stereo write is logged, by
    the error check that follows the queue call; the same cycle with the
    write accepted logs nothing. *)
Lemma C10_rejection_is_logged :
  format_of Toy.stereo_short = AL_FORMAT_STEREO16
  /\ in_buffer_err Toy.rejected = AL_INVALID_ENUM
  /\ errors_logged (run_events (toy_cycle Toy.rejected Toy.stereo_short) Toy.fresh)
     = [("queuing buffers"%string, AL_INVALID_ENUM)]
  /\ errors_logged (run_events (toy_cycle Toy.plain Toy.stereo_short) Toy.fresh) = [].
Proof.
  split; [by_run |]. split; [by_run |]. split; by_run.
Qed.

Lemma C10_witness :
  surround_capable Toy.stereo_short = false
  /\ float32_capable Toy.stereo_short = false
  /\ fst (run_value (toy_cycle Toy.rejected Toy.stereo_short) Toy.fresh) = Queued
  /\ forall msg,
       ~ In (EvWarnLog msg) (run_events (toy_cycle Toy.rejected Toy.stereo_short) Toy.fresh).
Proof.
  assert (Hs : surround_capable Toy.stereo_short = false) by by_run.
  assert (Hf : float32_capable Toy.stereo_short = false) by by_run.
  assert (Hq : fst (run_value (toy_cycle Toy.rejected Toy.stereo_short) Toy.fresh)
               = Queued) by by_run.
  split; [exact Hs |]. split; [exact Hf |]. split; [exact Hq |].
  pose proof (C10_stereo16_write_unchecked Toy.DPL2Decode 256 Toy.cfg Toy.rejected
                Toy.stereo_short Toy.fresh Hs Hf Hq) as Hthm.
  cbv zeta in Hthm. destruct Hthm as (_ & _ & _ & Hwarn & _). exact Hwarn.
Defined.

(** ** Instances of the further properties *)

Lemma Start_spawns_iff_true_witness :
  thread_joinable Toy.idle = false
  /\ fst (fst (Start Toy.device_ok Toy.thread_begun Toy.idle)) = Returned true
  /\ calls_of is_thread_start (snd (Start Toy.device_ok Toy.thread_begun Toy.idle))
     = 1%nat
  /\ calls_of is_panic (snd (Start Toy.no_device Toy.thread_begun Toy.idle)) = 1%nat.
Proof.
  assert (Hj : thread_joinable Toy.idle = false) by by_run.
  split; [exact Hj |].
  pose proof (Start_spawns_iff_true Toy.device_ok Toy.thread_begun Toy.idle Hj) as Hok.
  pose proof (Start_spawns_iff_true Toy.no_device Toy.thread_begun Toy.idle Hj) as Hno.
  cbv zeta in Hok, Hno.
  destruct Hok as (Hr & Hs & _). destruct Hno as (_ & _ & _ & Hp).
  split; [exact Hr |]. split; [exact Hs | exact Hp].
Defined.

Lemma Start_closes_device_without_context_witness :
  calls_of is_close_device
    (snd (Start Toy.device_no_context Toy.thread_begun Toy.idle)) = 1%nat
  /\ calls_of is_open_device (snd (Start Toy.no_device Toy.thread_begun Toy.idle))
     = 0%nat.
Proof.
  pose proof (Start_closes_device_without_context Toy.device_no_context
                Toy.thread_begun Toy.idle) as Hc.
  pose proof (Start_closes_device_without_context Toy.no_device Toy.thread_begun
                Toy.idle) as Hn.
  destruct Hc as [_ Hc]. destruct Hn as [Hn _].
  split; [exact Hc | exact Hn].
Defined.

Lemma Start_always_sets_flag_and_clears_witness :
  thread_joinable Toy.idle = false
  /\ fst (fst (Start Toy.device_closed Toy.thread_begun Toy.idle)) = Returned false
  /\ fst (fst (Start Toy.device_ok Toy.thread_begun Toy.idle)) = Returned true
  /\ m_run_thread (snd (fst (Start Toy.device_closed Toy.thread_begun Toy.idle))) = true
  /\ stream_soundTouch (snd (fst (Start Toy.device_closed Toy.thread_begun Toy.idle)))
     = clear (stream_soundTouch Toy.idle)
  /\ uiSource (snd (fst (Start Toy.device_closed Toy.thread_begun Toy.idle))) = 0
  /\ uiSource (snd (fst (Start Toy.device_ok Toy.thread_begun Toy.idle))) = 7.
Proof.
  assert (Hj : thread_joinable Toy.idle = false) by by_run.
  assert (Hr : fst (fst (Start Toy.device_closed Toy.thread_begun Toy.idle))
               = Returned false) by by_run.
  assert (Ht : fst (fst (Start Toy.device_ok Toy.thread_begun Toy.idle))
               = Returned true) by by_run.
  split; [exact Hj |]. split; [exact Hr |]. split; [exact Ht |].
  pose proof (Start_always_sets_flag_and_clears Toy.device_closed Toy.thread_begun
                Toy.idle) as Hclosed.
  pose proof (Start_always_sets_flag_and_clears Toy.device_ok Toy.thread_begun
                Toy.idle) as Hok.
  destruct Hclosed as (_ & Hflag & _ & Hfalse & _).
  destruct Hok as (_ & _ & _ & _ & Htrue).
  destruct (Hfalse Hj Hr) as (Hclear & Hsource & _).
  split; [exact Hflag |]. split; [exact Hclear |]. split; [exact Hsource |].
  rewrite (Htrue Ht). reflexivity.
Defined.



Lemma Stop_joins_before_teardown_witness :
  thread_joinable Toy.streaming = true
  /\ exists teardown,
       snd (Stop Toy.joined Toy.streaming)
       = [CallFlagClear; CallEventSet; CallSoundTouchClear; CallThreadJoin] ++ teardown
       /\ In (CallDeleteBuffers 4) teardown.
Proof.
  assert (Hj : thread_joinable Toy.streaming = true) by by_run.
  split; [exact Hj |].
  pose proof (Stop_joins_before_teardown Toy.joined Toy.streaming Hj) as Hthm.
  destruct Hthm as (teardown & Hcalls & _ & _ & Hbuf & _).
  exists teardown. split; [exact Hcalls | exact Hbuf].
Defined.

Lemma SetVolume_calls_source_iff_present_witness :
  thread_joinable Toy.streaming = true
  /\ snd (SetVolume 50 Toy.streaming) = [CallSourceGain 7 (volume_gain 50)]
  /\ snd (SetVolume 50 (snd (fst (Stop Toy.joined Toy.streaming)))) = [].
Proof.
  assert (Hj : thread_joinable Toy.streaming = true) by by_run.
  split; [exact Hj |].
  pose proof (SetVolume_calls_source_iff_present 50 Toy.joined Toy.streaming) as Hthm.
  destruct Hthm as (_ & Hcall & Hafter).
  split; [exact Hcall | exact (proj1 (Hafter Hj))].
Defined.

Lemma Clear_stops_or_plays_witness :
  snd (Clear true Toy.streaming) = [CallSoundTouchClear; CallSourceStop 7]
  /\ snd (Clear false Toy.streaming) = [CallSourcePlay 7]
  /\ m_run_thread (fst (Clear true Toy.streaming)) = m_run_thread Toy.streaming.
Proof.
  pose proof (Clear_stops_or_plays true 50 Toy.streaming) as Hm.
  pose proof (Clear_stops_or_plays false 50 Toy.streaming) as Hp.
  destruct Hm as (_ & _ & Hm & Hsame). destruct Hp as (_ & _ & Hp & _).
  split; [exact Hm |]. split; [exact Hp |].
  exact (proj1 (Hsame _ (or_introl eq_refl))).
Defined.

Lemma CheckALError_fetches_and_clears_witness :
  run_value (CheckALError "queuing buffers")
            (mkEnv AL_INVALID_VALUE (soundTouch Toy.fresh)) = AL_INVALID_VALUE
  /\ errors_logged (run_events (CheckALError "queuing buffers")
                      (mkEnv AL_INVALID_VALUE (soundTouch Toy.fresh)))
     = [("queuing buffers"%string, AL_INVALID_VALUE)].
Proof.
  pose proof (CheckALError_fetches_and_clears "queuing buffers" "buffering data"
                (mkEnv AL_INVALID_VALUE (soundTouch Toy.fresh))) as Hthm.
  destruct Hthm as (Hv & _ & Hlog & _).
  split; [exact Hv | exact Hlog].
Defined.

Lemma probe_capabilities_spec_witness :
  snd (probe_capabilities Toy.init) = true
  /\ init_apple Toy.init = false
  /\ fst (probe_capabilities Toy.init) = false.
Proof.
  assert (Hf : snd (probe_capabilities Toy.init) = true) by by_run.
  split; [exact Hf |].
  pose proof (probe_capabilities_spec Toy.init) as Hthm.
  destruct Hthm as [Hfloat Hsurround].
  split; [exact (proj1 (proj1 Hfloat Hf)) |].
  destruct (fst (probe_capabilities Toy.init)) eqn:Hs; [| reflexivity].
  destruct (proj1 Hsurround eq_refl) as [Hd _]. discriminate Hd.
Defined.

Lemma prologue_checks_generation_only_witness :
  errors_logged (run_events (prologue Toy.init) Toy.fresh) = []
  /\ numBuffers (fst (run_value (prologue Toy.init) Toy.fresh)) = 4.
Proof.
  pose proof (prologue_checks_generation_only Toy.init Toy.fresh) as Hthm.
  destruct Hthm as (Hlog & _ & Hn & _).
  split; [exact Hlog | exact Hn].
Defined.

Lemma SoundLoop_while_stops_at_false_witness :
  in_run Toy.stop = false
  /\ toy_loop ([Toy.plain] ++ Toy.stop :: [Toy.plain; Toy.rejected]) Toy.stereo_float
              Toy.fresh
     = toy_loop ([Toy.plain] ++ [Toy.stop]) Toy.stereo_float Toy.fresh.
Proof.
  assert (Hn : in_run Toy.stop = false) by by_run.
  split; [exact Hn |].
  exact (SoundLoop_while_stops_at_false Toy.DPL2Decode 256 Toy.cfg [Toy.plain] Toy.stop
           [Toy.plain; Toy.rejected] Toy.stereo_float Toy.fresh Hn).
Defined.

Lemma SoundLoop_round_robin_witness :
  0 < init_iLatency Toy.init + 2 < 2 ^ 32
  /\ buffers_queued
       (run_events (toy_SoundLoop Toy.init [Toy.plain; Toy.plain; Toy.stop]) Toy.fresh)
     = map (fun j => array_get 0 (init_buffers Toy.init)
                       (Z.to_nat (Z.of_nat j mod (init_iLatency Toy.init + 2))))
           (seq 0 (List.length
                     (buffers_queued
                        (run_events
                           (toy_SoundLoop Toy.init [Toy.plain; Toy.plain; Toy.stop])
                           Toy.fresh)))).
Proof.
  assert (HN : 0 < init_iLatency Toy.init + 2 < 2 ^ 32)
    by (vm_compute; split; reflexivity).
  split; [exact HN |].
  pose proof (SoundLoop_round_robin Toy.DPL2Decode 256 Toy.init
                [Toy.plain; Toy.plain; Toy.stop] Toy.fresh HN) as Hthm.
  cbv zeta in Hthm. destruct Hthm as [_ Hq]. exact Hq.
Defined.

Lemma SoundLoop_requests_bounded_witness :
  0 <= 256
  /\ Forall (fun r => 0 <= r <= 256)
       (frames_requested
          (run_events (toy_SoundLoop Toy.init [Toy.plain; Toy.stop]) Toy.fresh)).
Proof.
  assert (H0 : 0 <= 256) by lia.
  split; [exact H0 |].
  exact (SoundLoop_requests_bounded Toy.DPL2Decode 256 Toy.init [Toy.plain; Toy.stop]
           Toy.fresh H0).
Defined.

Lemma cycle_pulls_and_drains_once_witness :
  wait_cond Toy.cfg Toy.plain Toy.full = true
  /\ wait_cond Toy.cfg Toy.plain Toy.stereo_float = false
  /\ occurrences is_mix (run_events (toy_cycle Toy.plain Toy.full) Toy.fresh) = 0%nat
  /\ occurrences is_receive
       (run_events (toy_cycle Toy.plain Toy.stereo_float) Toy.fresh) = 1%nat.
Proof.
  assert (Hw : wait_cond Toy.cfg Toy.plain Toy.full = true) by by_run.
  assert (Hg : wait_cond Toy.cfg Toy.plain Toy.stereo_float = false) by by_run.
  split; [exact Hw |]. split; [exact Hg |].
  pose proof (cycle_pulls_and_drains_once Toy.DPL2Decode 256 Toy.cfg Toy.plain Toy.full
                Toy.fresh) as Hwait.
  pose proof (cycle_pulls_and_drains_once Toy.DPL2Decode 256 Toy.cfg Toy.plain
                Toy.stereo_float Toy.fresh) as Hgo.
  destruct Hwait as [Hwait _]. destruct Hgo as [_ Hgo].
  destruct (Hwait Hw) as (Hmix & _). destruct (Hgo Hg) as (_ & _ & Hrecv & _).
  split; [exact Hmix | exact Hrecv].
Defined.

Lemma cycle_applies_tempo_in_range_witness :
  wait_cond Toy.cfg Toy.fast Toy.stereo_float = false
  /\ F64.gt (final_rate Toy.fast) F64.tenth = true
  /\ F64.gt (final_rate Toy.fast) F64.ten = false
  /\ filter is_set_tempo (run_events (toy_cycle Toy.fast Toy.stereo_float) Toy.fresh)
     = [EvSetTempo (final_rate Toy.fast)].
Proof.
  assert (Hw : wait_cond Toy.cfg Toy.fast Toy.stereo_float = false) by by_run.
  assert (Hlo : F64.gt (final_rate Toy.fast) F64.tenth = true) by by_run.
  assert (Hhi : F64.gt (final_rate Toy.fast) F64.ten = false) by by_run.
  split; [exact Hw |]. split; [exact Hlo |]. split; [exact Hhi |].
  pose proof (cycle_applies_tempo_in_range Toy.DPL2Decode 256 Toy.cfg Toy.fast
                Toy.stereo_float Toy.fresh Hw Hlo Hhi) as Hthm.
  destruct Hthm as [Hset _]. exact Hset.
Defined.

Lemma cycle_rereads_speed_once_witness :
  wait_cond Toy.cfg Toy.stalled Toy.stereo_float = false
  /\ occurrences is_speed_read
       (run_events (toy_cycle Toy.stalled Toy.stereo_float) Toy.fresh)
     = (if F64.le (in_speed Toy.stalled) F64.zero then 2 else 1)%nat.
Proof.
  assert (Hw : wait_cond Toy.cfg Toy.stalled Toy.stereo_float = false) by by_run.
  split; [exact Hw |].
  pose proof (cycle_rereads_speed_once Toy.DPL2Decode 256 Toy.cfg Toy.stalled
                Toy.stereo_float Toy.fresh Hw) as Hthm.
  destruct Hthm as (_ & Hcount & _). exact Hcount.
Defined.

Lemma cycle_warns_iff_surround_cleared_witness :
  surround_capable Toy.surround_float = true
  /\ surround_capable
       (snd (run_value (toy_cycle Toy.long_rejected Toy.surround_float) Toy.fresh))
     = false
  /\ exists msg,
       In (EvWarnLog msg)
          (run_events (toy_cycle Toy.long_rejected Toy.surround_float) Toy.fresh).
Proof.
  assert (Hs : surround_capable Toy.surround_float = true) by by_run.
  assert (Hc : surround_capable
                 (snd (run_value (toy_cycle Toy.long_rejected Toy.surround_float)
                         Toy.fresh))
               = false) by by_run.
  split; [exact Hs |]. split; [exact Hc |].
  pose proof (cycle_warns_iff_surround_cleared Toy.DPL2Decode 256 Toy.cfg
                Toy.long_rejected Toy.surround_float Toy.fresh) as Hthm.
  exact (proj2 Hthm (conj Hs Hc)).
Defined.

Lemma cycle_downgrades_only_on_invalid_enum_witness :
  latch (pending_at_write Toy.long Toy.fresh) (in_buffer_err Toy.long) <> AL_INVALID_ENUM
  /\ float32_capable (snd (run_value (toy_cycle Toy.long Toy.surround_float) Toy.fresh))
     = float32_capable Toy.surround_float.
Proof.
  assert (Hp : latch (pending_at_write Toy.long Toy.fresh) (in_buffer_err Toy.long)
               <> AL_INVALID_ENUM) by (vm_compute; intros Heq; discriminate Heq).
  split; [exact Hp |].
  pose proof (cycle_downgrades_only_on_invalid_enum Toy.DPL2Decode 256 Toy.cfg Toy.long
                Toy.surround_float Toy.fresh) as Hthm.
  cbv zeta in Hthm. destruct Hthm as (Hkeep & _).
  exact (proj2 (Hkeep Hp)).
Defined.

Lemma short_sample_round_trip_witness :
  SHRT_MIN <= 12345 <= SHRT_MAX
  /\ sample_to_short (short_to_sample 12345) = Some 12345.
Proof.
  assert (Hx : SHRT_MIN <= 12345 <= SHRT_MAX) by (vm_compute; split; discriminate).
  split; [exact Hx |].
  pose proof (short_sample_round_trip 12345 []) as Hthm.
  destruct Hthm as [Hone _]. exact (Hone Hx).
Defined.

Lemma ingested_samples_in_unit_range_witness :
  SHRT_MIN <= 32767 <= SHRT_MAX
  /\ SFltb (short_to_sample 32767) F32.one = true.
Proof.
  assert (Hx : SHRT_MIN <= 32767 <= SHRT_MAX) by (vm_compute; split; discriminate).
  split; [exact Hx |].
  pose proof (ingested_samples_in_unit_range 32767 Hx) as Hthm.
  destruct Hthm as (_ & Hlt & _). exact Hlt.
Defined.

Lemma volume_gain_monotone_witness :
  0 <= 25 /\ 25 <= 50 /\ 50 <= 100
  /\ SFleb (volume_gain 25) (volume_gain 50) = true.
Proof.
  assert (H0 : 0 <= 25) by lia.
  assert (H1 : 25 <= 50) by lia.
  assert (H2 : 50 <= 100) by lia.
  split; [exact H0 |]. split; [exact H1 |]. split; [exact H2 |].
  pose proof (volume_gain_monotone 25 50 H0 H1 H2) as Hthm.
  destruct Hthm as [Hle _]. exact Hle.
Defined.

Lemma zero_lfe_only_lfe_witness :
  (1 < Z.to_nat 2)%nat
  /\ array_get F32.one (zero_lfe (repeat F32.one 12) 2) (1 * 6 + 3) = F32.zero
  /\ array_get F32.one (zero_lfe (repeat F32.one 18) 2) (2 * 6 + 3)
     = array_get F32.one (repeat F32.one 18) (2 * 6 + 3).
Proof.
  assert (Hk : (1 < Z.to_nat 2)%nat) by (vm_compute; lia).
  split; [exact Hk |].
  pose proof (zero_lfe_only_lfe (repeat F32.one 12) 2 F32.one) as Hset.
  pose proof (zero_lfe_only_lfe (repeat F32.one 18) 2 F32.one) as Hrest.
  destruct Hset as (_ & Hset & _). destruct Hrest as (_ & _ & Hrest).
  split.
  - apply (Hset 1%nat Hk). vm_compute. lia.
  - apply Hrest. intros k Hlt. change (Z.to_nat 2) with 2%nat in Hlt. lia.
Defined.
